(** * E4Streamer: the streaming core of the Empatica E4 adapter

    A shallow embedding of [recording_data/streamers/outdated/E4Streamer.py]:
    the text operations used by [_read_data], the exception-and-state monad
    in which the methods of the class run, the methods [__init__],
    [_connect], [_read_data], [_run] and [quit], and the properties of the
    streaming core proved or refuted on them. *)

From Stdlib Require Import ZArith Ascii String List Bool Lia.
From stdpp Require Import gmap strings list.

Local Open Scope Z_scope.

(** ** Text

    The decoded response is a [string]; each character stands for a code
    point below 256. *)

Module Text.

Definition LF : ascii := "010"%char.
Definition comma : ascii := ","%char.
Definition dot : ascii := "."%char.

(** [str.isspace] on the code points below 256: TAB..CR, FS..US, space,
    NEL and NBSP. *)
Definition isspace (c : ascii) : bool :=
  let n := N_of_ascii c in
  ((9 <=? n) && (n <=? 13) || (28 <=? n) && (n <=? 32)
   || (n =? 133) || (n =? 160))%N.

(** [s.split(sep)] for a one-character separator: never empty, one more
    segment than there are separators. *)
Fixpoint split_on (sep : ascii) (s : string) : list string :=
  match s with
  | EmptyString => [EmptyString]
  | String c s' =>
      if Ascii.eqb c sep then EmptyString :: split_on sep s'
      else match split_on sep s' with
           | x :: xs => String c x :: xs
           | [] => [String c EmptyString]
           end
  end.

(** [s.split()]: the maximal runs of non-whitespace characters. *)
Fixpoint split (s : string) : list string :=
  match s with
  | EmptyString => []
  | String c s' =>
      if isspace c then split s'
      else match s' with
           | EmptyString => [String c EmptyString]
           | String c' _ =>
               if isspace c' then String c EmptyString :: split s'
               else match split s' with
                    | x :: xs => String c x :: xs
                    | [] => [String c EmptyString]
                    end
           end
  end.

(** [s.replace(',', '.')]. *)
Definition replace_char (c : ascii) : ascii :=
  if Ascii.eqb c comma then dot else c.

Fixpoint replace (s : string) : string :=
  match s with
  | EmptyString => EmptyString
  | String c s' => String (replace_char c) (replace s')
  end.

(** A line followed by its terminator, and a list of such lines glued
    together: the text a peer sends for these lines. *)
Definition terminated (l : string) : string := l +:+ String LF EmptyString.

Definition unlines (ls : list string) : string :=
  foldr (fun l rest => terminated l +:+ rest) EmptyString ls.

Fixpoint has_char (c : ascii) (s : string) : bool :=
  match s with
  | EmptyString => false
  | String c' s' => Ascii.eqb c' c || has_char c s'
  end.

(** A line proper: no terminator inside it. *)
Definition no_newline (s : string) : Prop := has_char LF s = false.

End Text.

(** ** Exceptions, results and the method monad *)

Inductive exn : Type :=
| IndexError
| ValueError
| AttributeError
| NameError
| UnicodeDecodeError
| KeyboardInterrupt
| SocketTimeout
| ConnectionResetError
| ConnectionRefusedError
| OSError.

Definition exn_eqb (a b : exn) : bool :=
  match a, b with
  | IndexError, IndexError | ValueError, ValueError
  | AttributeError, AttributeError | NameError, NameError
  | UnicodeDecodeError, UnicodeDecodeError
  | KeyboardInterrupt, KeyboardInterrupt | SocketTimeout, SocketTimeout
  | ConnectionResetError, ConnectionResetError
  | ConnectionRefusedError, ConnectionRefusedError | OSError, OSError => true
  | _, _ => false
  end.

Inductive result (A : Type) : Type :=
| Ok (a : A)
| Raise (e : exn).
Arguments Ok {A} a.
Arguments Raise {A} e.

(** What one socket receive followed by [decode("utf-8")] yields. *)
Inductive recv_result : Type :=
| Received (response : string)
| Raised (e : exn).

(** [lst[i]]. *)
Definition index {A : Type} (l : list A) (i : nat) : result A :=
  match l !! i with
  | Some x => Ok x
  | None => Raise IndexError
  end.

(** ** Reference converters

    A concrete pair of converters on which the model can be run. [py_int]
    is [int(str)] on texts of code points below 256: an optional sign, then
    digits with single underscores allowed between them. [py_float] is
    [float(str)] on plain decimal literals: an optional sign, digits, an
    optional point and digits; its value is kept exactly, as a mantissa and
    a number of decimals with no trailing zero. The other texts [float]
    accepts (exponents, [inf], [nan], underscores) are outside it, and it
    is run on plain decimal literals only. *)

Module Builtins.

Definition digit (c : ascii) : option Z :=
  let n := N_of_ascii c in
  if ((48 <=? n) && (n <=? 57))%N then Some (Z.of_N n - 48) else None.

Fixpoint digits (acc : Z) (after_digit : bool) (s : string) : option Z :=
  match s with
  | EmptyString => if after_digit then Some acc else None
  | String c s' =>
      match digit c with
      | Some d => digits (10 * acc + d) true s'
      | None =>
          if Ascii.eqb c "_"%char && after_digit then digits acc false s'
          else None
      end
  end.

Definition signed {A : Type} (body : string -> option A) (neg : A -> A)
    (s : string) : option A :=
  match s with
  | String c s' =>
      if Ascii.eqb c "+"%char then body s'
      else if Ascii.eqb c "-"%char then neg <$> body s'
      else body s
  | EmptyString => body s
  end.

Definition py_int : string -> option Z := signed (digits 0 false) Z.opp.

Definition Decimal : Type := (Z * nat)%type.

Fixpoint normalize (k : nat) (m : Z) : Decimal :=
  match k with
  | O => (m, O)
  | S k' => if m mod 10 =? 0 then normalize k' (m / 10) else (m, k)
  end.

Fixpoint frac_part (m : Z) (k : nat) (s : string) : option Decimal :=
  match s with
  | EmptyString => Some (normalize k m)
  | String c s' =>
      match digit c with
      | Some d => frac_part (10 * m + d) (S k) s'
      | None => None
      end
  end.

Fixpoint int_part (m : Z) (seen : bool) (s : string) : option Decimal :=
  match s with
  | EmptyString => if seen then Some (m, O) else None
  | String c s' =>
      if Ascii.eqb c Text.dot then
        match s' with
        | EmptyString => if seen then Some (m, O) else None
        | _ => frac_part m 0 s'
        end
      else match digit c with
           | Some d => int_part (10 * m + d) true s'
           | None => None
           end
  end.

Definition py_float : string -> option Decimal :=
  signed (int_part 0 false) (fun d => (- d.1, d.2)).

End Builtins.

Import Text.

Section Streamer.

(** The builtins [float] and [int] applied to a [str]: [None] stands for
    the [ValueError] they raise on a text that is not a number. The
    development holds for any such pair of converters; [F] is the type of
    float values. *)
Variable F : Type.
Variable float : string -> option F.
Variable int : string -> option Z.

(** The [data] of a sample: a list of three integers for the
    accelerometer, one float for the other streams. *)
Inductive Data : Type :=
| Ints (l : list Z)
| Float (x : F).

(** The socket object: what [settimeout], [connect], [send] and [close]
    did to it. *)
Record Socket : Type := mkSocket {
  timeout : option Z;
  peer : option (string * Z);
  sent : list string;
  closes : nat
}.

Inductive LogEntry : Type :=
| LogStatus (msg : string)
| LogDebug (msg : string)
| LogError (msg : string) (e : exn).

(** The state the methods act on: the attributes of the object that the
    streaming core uses, the four module-level LSL outlets (undefined
    until [_connect] creates them) with the samples pushed to them, the
    store behind [append_data], the log and the seconds spent in
    [time.sleep]. *)
Record World : Type := mkWorld {
  _socket : option Socket;
  _running : bool;
  outletACC : option (list (list Z * F));
  outletBVP : option (list (list F * F));
  outletGSR : option (list (list F * F));
  outletTmp : option (list (list F * F));
  _data : gmap (string * string) (list (F * Data));
  _log : list LogEntry;
  slept : nat
}.

Definition set_socket (s : option Socket) (w : World) : World :=
  mkWorld s (_running w) (outletACC w) (outletBVP w) (outletGSR w)
    (outletTmp w) (_data w) (_log w) (slept w).
Definition set_running (b : bool) (w : World) : World :=
  mkWorld (_socket w) b (outletACC w) (outletBVP w) (outletGSR w)
    (outletTmp w) (_data w) (_log w) (slept w).
Definition set_outletACC (o : option (list (list Z * F))) (w : World) : World :=
  mkWorld (_socket w) (_running w) o (outletBVP w) (outletGSR w)
    (outletTmp w) (_data w) (_log w) (slept w).
Definition set_outletBVP (o : option (list (list F * F))) (w : World) : World :=
  mkWorld (_socket w) (_running w) (outletACC w) o (outletGSR w)
    (outletTmp w) (_data w) (_log w) (slept w).
Definition set_outletGSR (o : option (list (list F * F))) (w : World) : World :=
  mkWorld (_socket w) (_running w) (outletACC w) (outletBVP w) o
    (outletTmp w) (_data w) (_log w) (slept w).
Definition set_outletTmp (o : option (list (list F * F))) (w : World) : World :=
  mkWorld (_socket w) (_running w) (outletACC w) (outletBVP w) (outletGSR w)
    o (_data w) (_log w) (slept w).
Definition set_data (d : gmap (string * string) (list (F * Data)))
    (w : World) : World :=
  mkWorld (_socket w) (_running w) (outletACC w) (outletBVP w) (outletGSR w)
    (outletTmp w) d (_log w) (slept w).
Definition set_log (l : list LogEntry) (w : World) : World :=
  mkWorld (_socket w) (_running w) (outletACC w) (outletBVP w) (outletGSR w)
    (outletTmp w) (_data w) l (slept w).
Definition set_slept (n : nat) (w : World) : World :=
  mkWorld (_socket w) (_running w) (outletACC w) (outletBVP w) (outletGSR w)
    (outletTmp w) (_data w) (_log w) n.

(** A method body: it returns or raises, and leaves a world either way. *)
Definition M (A : Type) : Type := World -> result A * World.

Definition ret {A : Type} (a : A) : M A := fun w => (Ok a, w).
Definition raise {A : Type} (e : exn) : M A := fun w => (Raise e, w).
Definition bind {A B : Type} (m : M A) (k : A -> M B) : M B :=
  fun w => match m w with
           | (Ok a, w') => k a w'
           | (Raise e, w') => (Raise e, w')
           end.
Definition lift {A : Type} (r : result A) : M A := fun w => (r, w).
Definition modify (f : World -> World) : M unit := fun w => (Ok tt, f w).

(** [try: m  except: h]. The bare [except] catches every exception. *)
Definition try_except {A : Type} (m : M A) (h : exn -> M A) : M A :=
  fun w => match m w with
           | (Ok a, w') => (Ok a, w')
           | (Raise e, w') => h e w'
           end.

(** [try: m  finally: f]: [f] runs on every way out of [m]; an exception
    of [f] replaces the outcome of [m]. *)
Definition try_finally {A : Type} (m : M A) (f : M unit) : M A :=
  fun w => match m w with
           | (r, w') => match f w' with
                        | (Ok _, w'') => (r, w'')
                        | (Raise e, w'') => (Raise e, w'')
                        end
           end.

Local Notation "'do' x <- c1 ; c2" := (bind c1 (fun x => c2))
  (at level 10, x name, c1 at level 100, c2 at level 200).

(** [for i in range(start, start + n)], threading the local variables
    that the body updates. *)
Fixpoint for_range_from {A : Type} (start n : nat) (body : nat -> A -> M A)
    (acc : A) : M A :=
  match n with
  | O => ret acc
  | S n' => do acc' <- body start acc; for_range_from (S start) n' body acc'
  end.

Definition for_range {A : Type} (n : nat) (body : nat -> A -> M A)
    (acc : A) : M A :=
  for_range_from 0 n body acc.

(** *** Collaborators

    The base class [SensorStreamer], [pylsl] and [time] are outside the
    source file. *)

(** Modelled from the spec: [SensorStreamer.add_stream], missing from the
    sources, registers the channel sink identified by
    [(device_name, stream_name)]; it starts empty. *)
Definition add_stream (device_name stream_name : string) (w : World) : World :=
  set_data (<[(device_name, stream_name) := []]> (_data w)) w.

(** Modelled from the spec: [SensorStreamer.append_data], missing from the
    sources, is the sample delivery to the append-only channel sink
    identified by [(device_name, stream_name)]. *)
Definition append_data (device_name stream_name : string) (time_s : F)
    (data : Data) : M unit :=
  modify (fun w =>
    set_data (<[(device_name, stream_name) :=
                 default [] (_data w !! (device_name, stream_name))
                 ++ [(time_s, data)]]> (_data w)) w).

(** Modelled from the spec: the logging collaborator ([_log_status],
    [_log_debug], [_log_error] of [SensorStreamer], missing from the
    sources) records the message with its severity and, for an error, the
    exception whose traceback the message carries. *)
Definition _log_status (msg : string) : M unit :=
  modify (fun w => set_log (_log w ++ [LogStatus msg]) w).
Definition _log_debug (msg : string) : M unit :=
  modify (fun w => set_log (_log w ++ [LogDebug msg]) w).
Definition _log_error (msg : string) (e : exn) : M unit :=
  modify (fun w => set_log (_log w ++ [LogError msg e]) w).

(** Modelled from the spec: [SensorStreamer.quit], missing from the
    sources, has no part in the streaming core. *)
Definition SensorStreamer_quit : M unit := ret tt.

(** Modelled from the spec: [stop()], a method of [SensorStreamer] missing
    from the sources, clears the running flag. *)
Definition stop : M unit := modify (set_running false).

(** [time.sleep(seconds)]. *)
Definition sleep (seconds : nat) : M unit :=
  modify (fun w => set_slept (slept w + seconds)%nat w).

(** [outlet.push_sample(data, timestamp=time_s)] on each of the four
    module-level outlets; the name is unbound before [_connect]. *)
Definition push_ACC (data : list Z) (time_s : F) : M unit :=
  fun w => match outletACC w with
           | Some o => (Ok tt, set_outletACC (Some (o ++ [(data, time_s)])) w)
           | None => (Raise NameError, w)
           end.
Definition push_BVP (data : list F) (time_s : F) : M unit :=
  fun w => match outletBVP w with
           | Some o => (Ok tt, set_outletBVP (Some (o ++ [(data, time_s)])) w)
           | None => (Raise NameError, w)
           end.
Definition push_GSR (data : list F) (time_s : F) : M unit :=
  fun w => match outletGSR w with
           | Some o => (Ok tt, set_outletGSR (Some (o ++ [(data, time_s)])) w)
           | None => (Raise NameError, w)
           end.
Definition push_Tmp (data : list F) (time_s : F) : M unit :=
  fun w => match outletTmp w with
           | Some o => (Ok tt, set_outletTmp (Some (o ++ [(data, time_s)])) w)
           | None => (Raise NameError, w)
           end.

(** Methods of [self._socket]; it is [None] until [_connect] assigns it.
    [send] is taken to succeed on a socket object. *)
Definition on_socket (f : Socket -> Socket) : M unit :=
  fun w => match _socket w with
           | Some s => (Ok tt, set_socket (Some (f s)) w)
           | None => (Raise AttributeError, w)
           end.

Definition settimeout (t : Z) : M unit :=
  on_socket (fun s => mkSocket (Some t) (peer s) (sent s) (closes s)).

Definition connect (address : string * Z) (outcome : option exn) : M unit :=
  do _ <- on_socket (fun s => s);
  match outcome with
  | Some e => raise e
  | None => on_socket (fun s =>
              mkSocket (timeout s) (Some address) (sent s) (closes s))
  end.

Definition send (msg : string) : M unit :=
  on_socket (fun s => mkSocket (timeout s) (peer s) (sent s ++ [msg]) (closes s)).

Definition close : M unit :=
  on_socket (fun s => mkSocket (timeout s) (peer s) (sent s) (S (closes s))).

(** [self._socket.recv(...)] or [recvfrom(...)[0]], then
    [decode("utf-8")]: the outcome comes from the network. *)
Definition recv (net : recv_result) : M string :=
  do _ <- on_socket (fun s => s);
  match net with
  | Received response => ret response
  | Raised e => raise e
  end.

(** *** [__init__] *)

Definition _acc : bool := true.
Definition _bvp : bool := true.
Definition _gsr : bool := true.
Definition _tmp : bool := true.
Definition _device_id : string := "D931CD".
Definition _E4_network_ip : string := "127.0.0.6".
Definition _E4_network_port : Z := 3002.

Definition __init__ : World :=
  add_stream "Tmp-empatica_e4" "tmp-values"
    (add_stream "GSR-empatica_e4" "gsr-values"
       (add_stream "BVP-empatica_e4" "bvp-values"
          (add_stream "ACC-empatica_e4" "acc-values"
             (mkWorld None false None None None None ∅ [] 0%nat)))).

(** *** [_connect]

    [connect_outcome] is what opening the TCP connection does ([None]: it
    opens), [replies] what the successive receives of the handshake
    yield; with none left the receive times out. The [print] calls are
    left out. *)

Definition CRLF : string := String "013" (String "010" EmptyString).

Definition command (msg : string) (replies : list recv_result)
    : M (list recv_result) :=
  do _ <- send msg;
  match replies with
  | [] => do _ <- recv (Raised SocketTimeout); ret []
  | r :: rest => do _ <- recv r; ret rest
  end.

Definition subscribe (enabled : bool) (name : string)
    (replies : list recv_result) : M (list recv_result) :=
  if enabled then command ("device_subscribe " +:+ name +:+ " ON" +:+ CRLF) replies
  else ret replies.

Definition _connect (connect_outcome : option exn)
    (replies : list recv_result) : M bool :=
  do _ <- modify (set_socket (Some (mkSocket None None [] 0%nat)));
  do _ <- settimeout 3;
  do _ <- connect (_E4_network_ip, _E4_network_port) connect_outcome;
  do replies <- command ("device_list" +:+ CRLF) replies;
  do replies <- command ("device_connect " +:+ _device_id +:+ CRLF) replies;
  do replies <- command ("pause ON" +:+ CRLF) replies;
  do replies <- subscribe _acc "acc" replies;
  do replies <- subscribe _bvp "bvp" replies;
  do replies <- subscribe _gsr "gsr" replies;
  do replies <- subscribe _tmp "tmp" replies;
  do replies <- command ("pause OFF" +:+ CRLF) replies;
  do _ <- _log_status "Successfully connected to the E4 streamer.";
  do _ <- (if _acc then modify (set_outletACC (Some [])) else ret tt);
  do _ <- (if _bvp then modify (set_outletBVP (Some [])) else ret tt);
  do _ <- (if _gsr then modify (set_outletGSR (Some [])) else ret tt);
  do _ <- (if _tmp then modify (set_outletTmp (Some [])) else ret tt);
  ret true.

(** *** [_read_data] *)

(** The three lists the method builds and returns. *)
Definition Lists : Type := (list string * list F * list Data)%type.

Definition append3 (acc : Lists) (stream_type : string) (time_s : F)
    (data : Data) : Lists :=
  (acc.1.1 ++ [stream_type], acc.1.2 ++ [time_s], acc.2 ++ [data]).

(** [conv(tokens[k].replace(',', '.'))]. *)
Definition field {A : Type} (conv : string -> option A)
    (tokens : list string) (k : nat) : result A :=
  match index tokens k with
  | Ok t => match conv (replace t) with
            | Some v => Ok v
            | None => Raise ValueError
            end
  | Raise e => Raise e
  end.

(** One of the three scalar branches of the loop body. *)
Definition scalar_branch (push : list F -> F -> M unit) (name : string)
    (stream_type : string) (tokens : list string) (acc : Lists) : M Lists :=
  if String.eqb stream_type name then
    do time_s <- lift (field float tokens 1);
    do data <- lift (field float tokens 2);
    do _ <- push [data] time_s;
    ret (append3 acc stream_type time_s (Float data))
  else ret acc.

(** The statements of the body of [for i in range(len(samples) - 1)],
    on [sample = samples[i]]. *)
Definition process (sample : string) (acc : Lists) : M Lists :=
  let tokens := split sample in
  do stream_type <- lift (index tokens 0);
  do acc <-
    (if String.eqb stream_type "E4_Acc" then
       do time_s <- lift (field float tokens 1);
       do x <- lift (field int tokens 2);
       do y <- lift (field int tokens 3);
       do z <- lift (field int tokens 4);
       let data := [x; y; z] in
       do _ <- push_ACC data time_s;
       ret (append3 acc stream_type time_s (Ints data))
     else ret acc);
  do acc <- scalar_branch push_BVP "E4_Bvp" stream_type tokens acc;
  do acc <- scalar_branch push_GSR "E4_Gsr" stream_type tokens acc;
  scalar_branch push_Tmp "E4_Temperature" stream_type tokens acc.

Definition line_body (samples : list string) (i : nat) (acc : Lists)
    : M Lists :=
  do sample <- lift (index samples i);
  process sample acc.

(** [None] stands for the triple [(None, None, None)]. *)
Definition _read_data (net : recv_result) : M (option Lists) :=
  try_except
    (do response <- recv net;
     let samples := split_on LF response in
     do acc <- for_range (length samples - 1) (line_body samples) ([], [], []);
     ret (Some acc))
    (fun e =>
       do _ <- _log_error "ERROR reading from E4Streamer" e;
       do _ <- sleep 1;
       ret None).

(** *** [_run] *)

(** One of the four tests of the dispatch loop. *)
Definition route (name device_name stream_name : string)
    (stream_type : list string) (time_s : list F) (data : list Data)
    (i : nat) : M unit :=
  do tag <- lift (index stream_type i);
  if String.eqb tag name then
    do t <- lift (index time_s i);
    do d <- lift (index data i);
    append_data device_name stream_name t d
  else ret tt.

(** The body of [for i in range(len(stream_type))]. *)
Definition dispatch (stream_type : list string) (time_s : list F)
    (data : list Data) (i : nat) (_ : unit) : M unit :=
  do _ <- route "E4_Acc" "ACC-empatica_e4" "acc-values" stream_type time_s data i;
  do _ <- route "E4_Bvp" "BVP-empatica_e4" "bvp-values" stream_type time_s data i;
  do _ <- route "E4_Gsr" "GSR-empatica_e4" "gsr-values" stream_type time_s data i;
  route "E4_Temperature" "Tmp-empatica_e4" "tmp-values" stream_type time_s data i.

(** The body of [while self._running]. *)
Definition iteration (net : recv_result) : M unit :=
  do r <- _read_data net;
  match r with
  | Some (stream_type, time_s, data) =>
      for_range (length stream_type) (dispatch stream_type time_s data) tt
  | None => ret tt
  end.

(** What the surroundings do to the loop, one entry per event: a receive
    with its outcome (one iteration), a [KeyboardInterrupt] delivered in
    the loop outside [_read_data], or another thread calling [stop()]
    before the flag is tested again. *)
Inductive event : Type :=
| Recv (net : recv_result)
| Interrupt
| StopRequested.

(** [Finished]: control left the loop. [Blocked]: the events are used up
    and the loop is still inside its next receive. *)
Inductive progress : Type :=
| Finished
| Blocked.

Fixpoint while_running (events : list event) : M progress :=
  fun w =>
    if negb (_running w) then (Ok Finished, w)
    else match events with
         | [] => (Ok Blocked, w)
         | Recv net :: events' =>
             bind (iteration net) (fun _ => while_running events') w
         | Interrupt :: _ => (Raise KeyboardInterrupt, w)
         | StopRequested :: events' => bind stop (fun _ => while_running events') w
         end.

Definition _run (events : list event) : M progress :=
  fun w =>
    match while_running events w with
    | (Ok Blocked, w') => (Ok Blocked, w')
    | (r, w') =>
        try_finally
          (try_except (lift r)
             (fun e =>
                if exn_eqb e KeyboardInterrupt then ret Finished
                else do _ <- _log_error "ERROR RUNNING E4Streamer" e;
                     ret Finished))
          close w'
    end.

(** *** [quit] *)

Definition quit : M unit :=
  do _ <- _log_debug "E4Streamer quitting";
  do _ <- close;
  SensorStreamer_quit.

(** *** Vocabulary for the statements *)

(** The lines one call of [_read_data] iterates over: every segment of
    the response but the last. *)
Definition batch_lines (response : string) : list string :=
  let samples := split_on LF response in
  take (length samples - 1) samples.

(** [for x in xs], threading the local variables. *)
Fixpoint for_each {X A : Type} (xs : list X) (body : X -> A -> M A)
    (acc : A) : M A :=
  match xs with
  | [] => ret acc
  | x :: xs' => do acc' <- body x acc; for_each xs' body acc'
  end.

(** A recognised sample: [(stream_type, time_s, data)]. *)
Definition Sample : Type := (string * F * Data)%type.

Definition rbind {A B : Type} (r : result A) (k : A -> result B) : result B :=
  match r with
  | Ok a => k a
  | Raise e => Raise e
  end.

(** What the loop body makes of one line, as a value: the exception it
    raises, the sample it recognises, or nothing for a tag outside the
    four. *)
Definition parse (line : string) : result (option Sample) :=
  let tokens := split line in
  rbind (index tokens 0) (fun stream_type =>
    if String.eqb stream_type "E4_Acc" then
      rbind (field float tokens 1) (fun time_s =>
      rbind (field int tokens 2) (fun x =>
      rbind (field int tokens 3) (fun y =>
      rbind (field int tokens 4) (fun z =>
      Ok (Some (stream_type, time_s, Ints [x; y; z]))))))
    else if String.eqb stream_type "E4_Bvp" || String.eqb stream_type "E4_Gsr"
            || String.eqb stream_type "E4_Temperature" then
      rbind (field float tokens 1) (fun time_s =>
      rbind (field float tokens 2) (fun data =>
      Ok (Some (stream_type, time_s, Float data))))
    else Ok None).

(** The samples recognised in a batch up to its first faulting line, and
    that fault if there is one. *)
Fixpoint parse_lines (lines : list string) : list Sample * option exn :=
  match lines with
  | [] => ([], None)
  | line :: rest =>
      match parse line with
      | Raise e => ([], Some e)
      | Ok o => (option_list o ++ (parse_lines rest).1, (parse_lines rest).2)
      end
  end.

(** The pushes a list of samples amounts to, per outlet. *)
Definition acc_pushes (ss : list Sample) : list (list Z * F) :=
  omap (fun s : Sample =>
          match s with
          | (tag, time_s, Ints l) =>
              if String.eqb tag "E4_Acc" then Some (l, time_s) else None
          | _ => None
          end) ss.

Definition scalar_pushes (name : string) (ss : list Sample)
    : list (list F * F) :=
  omap (fun s : Sample =>
          match s with
          | (tag, time_s, Float x) =>
              if String.eqb tag name then Some ([x], time_s) else None
          | _ => None
          end) ss.

(** The entries a list of samples amounts to in the sink of one tag. *)
Definition entries (name : string) (ss : list Sample) : list (F * Data) :=
  omap (fun s : Sample =>
          if String.eqb s.1.1 name then Some (s.1.2, s.2) else None) ss.

Definition extend {A : Type} (o : option (list A)) (l : list A)
    : option (list A) :=
  (fun old => old ++ l) <$> o.

(** The world once the samples [ss] have been pushed to the outlets. *)
Definition pushed (ss : list Sample) (w : World) : World :=
  mkWorld (_socket w) (_running w)
    (extend (outletACC w) (acc_pushes ss))
    (extend (outletBVP w) (scalar_pushes "E4_Bvp" ss))
    (extend (outletGSR w) (scalar_pushes "E4_Gsr" ss))
    (extend (outletTmp w) (scalar_pushes "E4_Temperature" ss))
    (_data w) (_log w) (slept w).

(** The world once [_read_data] has handled the exception [e]. *)
Definition faulted (e : exn) (w : World) : World :=
  set_slept (slept w + 1)%nat
    (set_log (_log w ++ [LogError "ERROR reading from E4Streamer" e]) w).

(** The three lists [_read_data] returns for the samples [ss]. *)
Definition lists_of (ss : list Sample) : Lists :=
  (map (fun s : Sample => s.1.1) ss, map (fun s : Sample => s.1.2) ss,
   map (fun s : Sample => s.2) ss).

(** The sink of each tag. *)
Definition sink (name : string) : string * string :=
  if String.eqb name "E4_Acc" then ("ACC-empatica_e4", "acc-values")
  else if String.eqb name "E4_Bvp" then ("BVP-empatica_e4", "bvp-values")
  else if String.eqb name "E4_Gsr" then ("GSR-empatica_e4", "gsr-values")
  else ("Tmp-empatica_e4", "tmp-values").

Definition vocabulary : list string :=
  ["E4_Acc"; "E4_Bvp"; "E4_Gsr"; "E4_Temperature"].

(** The lists once the samples [ss] have been appended to them. *)
Definition record_all (acc : Lists) (ss : list Sample) : Lists :=
  (acc.1.1 ++ map (fun s : Sample => s.1.1) ss,
   acc.1.2 ++ map (fun s : Sample => s.1.2) ss,
   acc.2 ++ map (fun s : Sample => s.2) ss).

(** The world once the dispatch loop of [_run] has handled the sample
    [s], and a list of samples. *)
Definition deliver (w : World) (s : Sample) : World :=
  if existsb (String.eqb s.1.1) vocabulary then
    set_data (<[sink s.1.1 :=
                 default [] (_data w !! sink s.1.1) ++ [(s.1.2, s.2)]]>
                (_data w)) w
  else w.

Definition delivered (ss : list Sample) (w : World) : World :=
  foldl deliver w ss.

(** What the sink of a tag holds. *)
Definition channel (name : string) (w : World) : list (F * Data) :=
  default [] (_data w !! sink name).

(** [m] leaves every world related by [R] to the one it started from. *)
Definition keeps {A : Type} (R : relation World) (m : M A) : Prop :=
  forall w, R w (m w).2.

(** Same socket and running flag; and same store as well. *)
Definition same_link (w w' : World) : Prop :=
  _socket w' = _socket w /\ _running w' = _running w.

Definition same_core (w w' : World) : Prop :=
  same_link w w' /\ _data w' = _data w.

Definition defined {A : Type} (o : option A) : bool :=
  match o with
  | Some _ => true
  | None => false
  end.

(** The number of payload values the loop body reads on a line of a given
    tag, and whether the token at position [k] of such a line is a number
    for the converter the body applies there. *)
Definition arity (tag : string) : nat :=
  if String.eqb tag "E4_Acc" then 3%nat else 1%nat.

Definition numeric (tag : string) (k : nat) (t : string) : bool :=
  if String.eqb tag "E4_Acc" && (2 <=? k)%nat then defined (int (replace t))
  else defined (float (replace t)).

(** A line with a transient error: no token at all, or one of the four
    tags followed by too few tokens or by a required token that is not a
    number. Tokens beyond the required ones are not looked at. *)
Definition faulty (line : string) : bool :=
  match split line with
  | [] => true
  | tag :: rest =>
      existsb (String.eqb tag) vocabulary
      && negb ((1 + arity tag <=? length rest)%nat
               && forallb (fun kt : nat * string => numeric tag kt.1 kt.2)
                    (zip (seq 1 (1 + arity tag)) rest))
  end.

(** The socket once [close] has been called on it one more time. *)
Definition closed_once (s : Socket) : Socket :=
  mkSocket (timeout s) (peer s) (sent s) (S (closes s)).

(** A world in which [_connect] has succeeded on a fresh object (the
    bridge answered each of the eight commands), and the same world once
    the running flag is set. *)
Definition handshake_replies : list recv_result :=
  replicate 8 (Received "R device_connect OK").

Definition connected : World := (_connect None handshake_replies __init__).2.

Definition streaming : World := set_running true connected.

(** The outlets exist and [self._socket] is a socket: [_connect] got as
    far as creating them. *)
Definition ready (w : World) : bool :=
  defined (_socket w) && defined (outletACC w) && defined (outletBVP w)
  && defined (outletGSR w) && defined (outletTmp w).

(** *** Vocabulary for the further statements *)

(** The commands of the handshake of [_connect], in the order sent. *)
Definition handshake_commands : list string :=
  ["device_list" +:+ CRLF;
   "device_connect " +:+ _device_id +:+ CRLF;
   "pause ON" +:+ CRLF;
   "device_subscribe acc ON" +:+ CRLF;
   "device_subscribe bvp ON" +:+ CRLF;
   "device_subscribe gsr ON" +:+ CRLF;
   "device_subscribe tmp ON" +:+ CRLF;
   "pause OFF" +:+ CRLF].

(** Same log and same time spent sleeping. *)
Definition same_journal (w w' : World) : Prop :=
  _log w' = _log w /\ slept w' = slept w.

(** The text after the last terminator of a response: the segment the loop
    of [_read_data] leaves out. *)
Definition tail_of (response : string) : string :=
  default EmptyString (last (split_on LF response)).

(** Whether no line of a response faults, the samples recognised in it up
    to the first fault, and for a sequence of responses: what the sink of a
    tag receives from them, and how many of them hold a fault. *)
Definition batch_ok (response : string) : bool :=
  match (parse_lines (batch_lines response)).2 with
  | None => true
  | Some _ => false
  end.

Definition batch_samples (response : string) : list Sample :=
  (parse_lines (batch_lines response)).1.

Definition stored (name : string) (responses : list string)
    : list (F * Data) :=
  concat (map (fun r => if batch_ok r then entries name (batch_samples r)
                        else []) responses).

Definition faults (responses : list string) : nat :=
  length (filter (fun r => batch_ok r = false) responses).

(** The stream of every tag exists in the store. *)
Definition registered (w : World) : Prop :=
  forall name, In name vocabulary -> is_Some (_data w !! sink name).

(** A text as the converters see it: not empty, without whitespace and
    without comma. *)
Fixpoint all_chars (p : ascii -> bool) (s : string) : bool :=
  match s with
  | EmptyString => true
  | String c s' => p c && all_chars p s'
  end.

Definition token_like (t : string) : bool :=
  negb (String.eqb t EmptyString) && all_chars (fun c => negb (isspace c)) t.

Definition clean (t : string) : bool :=
  token_like t && negb (has_char comma t).

(** Same store, same running flag and same time slept. *)
Definition same_store (w w' : World) : Prop :=
  _data w' = _data w /\ _running w' = _running w /\ slept w' = slept w.

(** *** [get_default_visualization_options]

    Dictionaries are finite maps; a [KeyError] is [None]. [_streams_info],
    an attribute kept by the base class, is an argument: a dictionary from
    device names to dictionaries from stream names to stream descriptions.
    [visualization_options] is [Some] dictionary from device names to
    option dictionaries, or [None] when it is not a dictionary. *)

(** The values of an option dictionary: a visualizer class or [None],
    flags, numbers, texts. *)
Inductive Value : Type :=
| VNone
| VBool (b : bool)
| VInt (n : Z)
| VStr (s : string)
| VClass (name : string).

(** [d.setdefault(k, v)], for what it does to [d]. *)
Definition setdefault {V : Type} (k : string) (v : V) (d : gmap string V)
    : gmap string V :=
  match d !! k with
  | Some _ => d
  | None => <[k := v]> d
  end.

(** [for (k, v) in d.items()], threading the dictionary being built. *)
Definition for_items {V A : Type} (d : gmap string V)
    (body : string -> V -> A -> option A) (acc : option A) : option A :=
  map_fold (fun k v acc => acc ≫= body k v) acc d.

(** [{'class': None}] and the line plot options given to the four streams. *)
Definition no_visualizer : gmap string Value := {["class" := VNone]}.

Definition line_plot : gmap string Value :=
  <["class" := VClass "LinePlotVisualizer"]>
    (<["single_graph" := VBool true]>
       (<["plot_duration_s" := VInt 15]>
          (<["downsample_factor" := VInt 1]> ∅))).

(** [processed_options[device_name].setdefault(stream_name, {'class': None})],
    [processed_options[device_name][stream_name] = options] and
    [processed_options[device_name][stream_name][k] = v]. *)
Definition setdefault_stream (device_name stream_name : string)
    (processed : gmap string (gmap string (gmap string Value)))
    : option (gmap string (gmap string (gmap string Value))) :=
  match processed !! device_name with
  | Some streams =>
      Some (<[device_name := setdefault stream_name no_visualizer streams]>
              processed)
  | None => None
  end.

Definition assign_stream (device_name stream_name : string)
    (options : gmap string Value)
    (processed : gmap string (gmap string (gmap string Value)))
    : option (gmap string (gmap string (gmap string Value))) :=
  match processed !! device_name with
  | Some streams =>
      Some (<[device_name := <[stream_name := options]> streams]> processed)
  | None => None
  end.

Definition assign_option (device_name stream_name k : string) (v : Value)
    (processed : gmap string (gmap string (gmap string Value)))
    : option (gmap string (gmap string (gmap string Value))) :=
  match processed !! device_name with
  | Some streams =>
      match streams !! stream_name with
      | Some options =>
          Some (<[device_name := <[stream_name := <[k := v]> options]> streams]>
                  processed)
      | None => None
      end
  | None => None
  end.

(** The first loop: every registered stream starts without visualizer. *)
Definition start_without_visualizer {I : Type}
    (_streams_info : gmap string (gmap string I))
    : option (gmap string (gmap string (gmap string Value))) :=
  for_items _streams_info
    (fun device_name device_info processed =>
       for_items device_info
         (fun stream_name _ processed =>
            setdefault_stream device_name stream_name processed)
         (Some (setdefault device_name ∅ processed)))
    (Some ∅).

(** The four assignments of the line plot. *)
Definition plot_four_streams
    (processed : gmap string (gmap string (gmap string Value)))
    : option (gmap string (gmap string (gmap string Value))) :=
  ((assign_stream "ACC-empatica_e4" "acc-values" line_plot processed
    ≫= assign_stream "BVP-empatica_e4" "bvp-values" line_plot)
   ≫= assign_stream "GSR-empatica_e4" "gsr-values" line_plot)
  ≫= assign_stream "Tmp-empatica_e4" "tmp-values" line_plot.

(** The last loop: the options given for a device override those of each
    of its streams. *)
Definition override_options {I : Type}
    (_streams_info : gmap string (gmap string I))
    (visualization_options : gmap string (gmap string Value))
    (processed : gmap string (gmap string (gmap string Value)))
    : option (gmap string (gmap string (gmap string Value))) :=
  for_items _streams_info
    (fun device_name device_info processed =>
       match visualization_options !! device_name with
       | Some device_options =>
           for_items device_info
             (fun stream_name _ processed =>
                for_items device_options
                  (fun k v processed =>
                     assign_option device_name stream_name k v processed)
                  (Some processed))
             (Some processed)
       | None => Some processed
       end)
    (Some processed).

Definition get_default_visualization_options {I : Type}
    (_streams_info : gmap string (gmap string I))
    (visualization_options : option (gmap string (gmap string Value)))
    : option (gmap string (gmap string (gmap string Value))) :=
  match start_without_visualizer _streams_info ≫= plot_four_streams with
  | Some processed =>
      match visualization_options with
      | Some visualization_options =>
          override_options _streams_info visualization_options processed
      | None => Some processed
      end
  | None => None
  end.

(** The options of a stream of a device in a result, the four streams given
    the line plot, and the options the function is to return for a stream:
    those given for its device, over the line plot or [{'class': None}]. *)
Definition lookup2 (processed : gmap string (gmap string (gmap string Value)))
    (device_name stream_name : string) : option (gmap string Value) :=
  processed !! device_name ≫= (fun streams => streams !! stream_name).

(** The streams of a device, each without visualizer. *)
Definition blank_streams {I : Type} (device_info : gmap string I)
    : gmap string (gmap string Value) :=
  (fun _ : I => no_visualizer) <$> device_info.

Definition plotted : list (string * string) :=
  [("ACC-empatica_e4", "acc-values"); ("BVP-empatica_e4", "bvp-values");
   ("GSR-empatica_e4", "gsr-values"); ("Tmp-empatica_e4", "tmp-values")].

Definition expected_options {I : Type}
    (_streams_info : gmap string (gmap string I))
    (visualization_options : option (gmap string (gmap string Value)))
    (device_name stream_name : string) : option (gmap string Value) :=
  match _streams_info !! device_name with
  | None => None
  | Some device_info =>
      match device_info !! stream_name with
      | Some _ =>
          Some (default ∅ (visualization_options
                           ≫= (fun options => options !! device_name))
                ∪ (if bool_decide ((device_name, stream_name) ∈ plotted)
                   then line_plot else no_visualizer))
      | None =>
          if bool_decide ((device_name, stream_name) ∈ plotted)
          then Some line_plot else None
      end
  end.




(** ** Facts about the text operations *)

Lemma split_on_nonempty (sep : ascii) (s : string) : split_on sep s <> [].
Proof.
  destruct s as [|c s]; simpl; [discriminate|].
  destruct (Ascii.eqb c sep); [discriminate|].
  destruct (split_on sep s); discriminate.
Qed.

Lemma append_cons (c : ascii) (a b : string) :
  String c a +:+ b = String c (a +:+ b).
Proof. reflexivity. Qed.

Lemma append_empty (b : string) : EmptyString +:+ b = b.
Proof. reflexivity. Qed.

Lemma split_on_line (sep : ascii) (l rest : string) :
  has_char sep l = false ->
  split_on sep (l +:+ String sep rest) = l :: split_on sep rest.
Proof.
  induction l as [|c l IH]; intros H.
  - rewrite append_empty. simpl. now rewrite Ascii.eqb_refl.
  - simpl in H. apply orb_false_iff in H as [Hc Hl].
    rewrite append_cons. simpl. rewrite Hc, (IH Hl). reflexivity.
Qed.

Lemma split_on_no_sep (sep : ascii) (l : string) :
  has_char sep l = false -> split_on sep l = [l].
Proof.
  induction l as [|c l IH]; simpl; intros H; [reflexivity|].
  apply orb_false_iff in H as [Hc Hl].
  rewrite Hc, (IH Hl). reflexivity.
Qed.

Lemma append_assoc (a b c : string) : (a +:+ b) +:+ c = a +:+ (b +:+ c).
Proof.
  induction a as [|x a IH]; [reflexivity|].
  now rewrite !append_cons, IH.
Qed.

Lemma split_on_unlines (g : list string) (rest : string) :
  Forall no_newline g ->
  split_on LF (unlines g +:+ rest) = g ++ split_on LF rest.
Proof.
  induction 1 as [|l g Hl Hg IH]; [reflexivity|].
  change (unlines (l :: g)) with (terminated l +:+ unlines g).
  unfold terminated. rewrite !append_assoc.
  change (String LF EmptyString +:+ (unlines g +:+ rest))
    with (String LF (unlines g +:+ rest)).
  rewrite (split_on_line _ _ _ Hl), IH. reflexivity.
Qed.

Lemma take_all_but_last {X : Type} (g : list X) (x : X) :
  take (length (g ++ [x]) - 1) (g ++ [x]) = g.
Proof.
  rewrite length_app. simpl.
  replace (length g + 1 - 1)%nat with (length g) by lia.
  now rewrite take_app_length.
Qed.

Lemma batch_lines_unlines (g : list string) (tail : string) :
  Forall no_newline g -> no_newline tail ->
  batch_lines (unlines g +:+ tail) = g.
Proof.
  intros Hg Ht. unfold batch_lines.
  rewrite (split_on_unlines _ _ Hg), (split_on_no_sep _ _ Ht).
  apply take_all_but_last.
Qed.

Local Arguments isspace : simpl never.
Local Arguments replace_char : simpl never.

Lemma isspace_replace_char (c : ascii) : isspace (replace_char c) = isspace c.
Proof.
  destruct c as [[] [] [] [] [] [] [] []]; reflexivity.
Qed.

Lemma replace_char_LF (c : ascii) :
  Ascii.eqb (replace_char c) LF = Ascii.eqb c LF.
Proof.
  destruct c as [[] [] [] [] [] [] [] []]; reflexivity.
Qed.

Lemma replace_char_idem (c : ascii) :
  replace_char (replace_char c) = replace_char c.
Proof.
  destruct c as [[] [] [] [] [] [] [] []]; reflexivity.
Qed.

Lemma replace_idem (s : string) : replace (replace s) = replace s.
Proof.
  induction s as [|c s IH]; simpl; [reflexivity|].
  now rewrite replace_char_idem, IH.
Qed.

Lemma split_replace (s : string) : split (replace s) = map replace (split s).
Proof.
  induction s as [|c s IH]; simpl; [reflexivity|].
  rewrite isspace_replace_char.
  destruct (isspace c); [exact IH|].
  destruct s as [|c' s]; [reflexivity|].
  rewrite IH.
  change (replace (String c' s)) with (String (replace_char c') (replace s)).
  cbv iota. rewrite isspace_replace_char.
  destruct (isspace c'); [reflexivity|].
  destruct (split (String c' s)); reflexivity.
Qed.

Lemma split_on_replace (s : string) :
  split_on LF (replace s) = map replace (split_on LF s).
Proof.
  induction s as [|c s IH]; simpl; [reflexivity|].
  rewrite replace_char_LF.
  destruct (Ascii.eqb c LF); simpl; [now rewrite IH|].
  rewrite IH. destruct (split_on LF s); reflexivity.
Qed.

Lemma batch_lines_replace (response : string) :
  batch_lines (replace response) = map replace (batch_lines response).
Proof.
  unfold batch_lines. rewrite split_on_replace, length_map.
  symmetry. apply fmap_take.
Qed.

(** ** Facts about the loops *)

Lemma bind_run {A B : Type} (m : M A) (k : A -> M B) (w : World) :
  bind m k w = match m w with
               | (Ok a, w') => k a w'
               | (Raise e, w') => (Raise e, w')
               end.
Proof. reflexivity. Qed.

Lemma index_middle {X : Type} (pre l : list X) (x : X) :
  index (pre ++ x :: l) (length pre) = Ok x.
Proof. unfold index. now rewrite list_lookup_middle. Qed.

Lemma for_range_from_each {X A : Type} (body : X -> A -> M A)
    (l suf : list X) :
  forall (pre : list X) (acc : A) (w : World),
    for_range_from (length pre) (length l)
      (fun i a => do x <- lift (index (pre ++ l ++ suf) i); body x a) acc w
    = for_each l body acc w.
Proof.
  induction l as [|x l IH]; intros pre acc w; [reflexivity|].
  specialize (IH (pre ++ [x])).
  rewrite length_app, Nat.add_1_r, <- app_assoc in IH.
  simpl. rewrite !bind_run. unfold lift at 1. rewrite index_middle.
  destruct (body x acc w) as [[acc'|e] w']; [apply IH|reflexivity].
Qed.

Lemma read_loop (response : string) (acc : Lists) (w : World) :
  for_range (length (split_on LF response) - 1)
    (line_body (split_on LF response)) acc w
  = for_each (batch_lines response) process acc w.
Proof.
  unfold batch_lines, for_range.
  set (samples := split_on LF response).
  set (n := (length samples - 1)%nat).
  assert (Hn : length (take n samples) = n).
  { rewrite length_take. unfold n. lia. }
  pose proof (for_range_from_each process (take n samples) (drop n samples)
                [] acc w) as H.
  rewrite Hn in H. simpl in H. rewrite take_drop in H. exact H.
Qed.

(** ** Facts about [_read_data] *)

Ltac open_world w :=
  destruct w as [sock run oa ob og ot d lg sl];
  unfold ready; simpl;
  destruct sock, oa, ob, og, ot; simpl; try discriminate; intros _.

Lemma pushed_nil (w : World) : ready w = true -> pushed [] w = w.
Proof.
  open_world w. unfold pushed, extend. simpl. now rewrite !app_nil_r.
Qed.

Lemma ready_pushed (ss : list Sample) (w : World) :
  ready (pushed ss w) = ready w.
Proof.
  destruct w as [sock run oa ob og ot d lg sl]. unfold ready, pushed. simpl.
  destruct sock, oa, ob, og, ot; reflexivity.
Qed.

Lemma extend_extend {A : Type} (o : option (list A)) (l1 l2 : list A) :
  extend (extend o l1) l2 = extend o (l1 ++ l2).
Proof. destruct o; simpl; [now rewrite app_assoc|reflexivity]. Qed.

Lemma pushed_app (ss1 ss2 : list Sample) (w : World) :
  pushed (ss1 ++ ss2) w = pushed ss2 (pushed ss1 w).
Proof.
  unfold pushed, acc_pushes, scalar_pushes. simpl.
  now rewrite !extend_extend, !omap_app.
Qed.

Lemma record_all_app (acc : Lists) (ss1 ss2 : list Sample) :
  record_all acc (ss1 ++ ss2) = record_all (record_all acc ss1) ss2.
Proof. unfold record_all. simpl. now rewrite !map_app, !app_assoc. Qed.

Lemma record_all_nil (acc : Lists) : record_all acc [] = acc.
Proof.
  destruct acc as [[a b] c]. unfold record_all. simpl.
  now rewrite !app_nil_r.
Qed.

Ltac branch_case :=
  unfold bind, lift, rbind, ret; simpl;
  repeat (match goal with
          | |- context [field ?c ?t ?k] => destruct (field c t k)
          end; simpl; try reflexivity);
  unfold pushed, record_all, append3, extend; simpl;
  rewrite !app_nil_r.

(** The loop body on one line does what [parse] says of the line. *)
Lemma process_parse (line : string) (acc : Lists) (w : World) :
  ready w = true ->
  process line acc w =
    match parse line with
    | Raise e => (Raise e, w)
    | Ok o => (Ok (record_all acc (option_list o)), pushed (option_list o) w)
    end.
Proof.
  unfold process, parse.
  rewrite bind_run. unfold lift at 1, rbind at 1.
  destruct (index (split line) 0) as [tag|e]; [|reflexivity].
  revert w. open_world w.
  destruct (String.eqb_spec tag "E4_Acc") as [->|Hacc].
  { unfold scalar_branch. now branch_case. }
  unfold scalar_branch, bind at 1, ret at 1.
  destruct (String.eqb_spec tag "E4_Bvp") as [->|Hbvp].
  { now branch_case. }
  destruct (String.eqb_spec tag "E4_Gsr") as [->|Hgsr].
  { now branch_case. }
  destruct (String.eqb_spec tag "E4_Temperature") as [->|Htmp].
  { now branch_case. }
  unfold bind, ret, pushed, record_all, extend. simpl.
  destruct acc as [[a b] c]. simpl. now rewrite !app_nil_r.
Qed.

Lemma for_each_process (lines : list string) :
  forall (acc : Lists) (w : World),
    ready w = true ->
    for_each lines process acc w =
      (match (parse_lines lines).2 with
       | None => Ok (record_all acc (parse_lines lines).1)
       | Some e => Raise e
       end, pushed (parse_lines lines).1 w).
Proof.
  induction lines as [|line lines IH]; intros acc w Hw.
  - simpl. now rewrite record_all_nil, pushed_nil.
  - simpl. rewrite bind_run, (process_parse _ _ _ Hw).
    destruct (parse line) as [o|e]; simpl.
    + rewrite IH by now rewrite ready_pushed.
      now rewrite record_all_app, pushed_app.
    + now rewrite pushed_nil.
Qed.

Lemma read_data_received (response : string) (w : World) :
  ready w = true ->
  _read_data (Received response) w =
    match (parse_lines (batch_lines response)).2 with
    | None => (Ok (Some (lists_of (parse_lines (batch_lines response)).1)),
               pushed (parse_lines (batch_lines response)).1 w)
    | Some e => (Ok None,
                 faulted e (pushed (parse_lines (batch_lines response)).1 w))
    end.
Proof.
  intros Hw. unfold _read_data, try_except.
  rewrite bind_run.
  assert (Hrecv : recv (Received response) w = (Ok response, w)).
  { revert Hw. open_world w. reflexivity. }
  rewrite Hrecv, bind_run, read_loop, (for_each_process _ _ _ Hw).
  destruct (parse_lines (batch_lines response)).2; reflexivity.
Qed.

Lemma read_data_raised (e : exn) (w : World) :
  defined (_socket w) = true ->
  _read_data (Raised e) w = (Ok None, faulted e w).
Proof.
  destruct w as [sock run oa ob og ot d lg sl]. simpl.
  destruct sock; [reflexivity|discriminate].
Qed.

Lemma read_data_no_socket (net : recv_result) (w : World) :
  _socket w = None ->
  _read_data net w = (Ok None, faulted AttributeError w).
Proof.
  destruct w as [sock run oa ob og ot d lg sl]. simpl. intros ->.
  reflexivity.
Qed.

(** ** What the methods leave alone *)

Section Frames.

Context (R : relation World) `{!PreOrder R}.

Lemma keeps_ret {A : Type} (a : A) : keeps R (ret a).
Proof. intros w. reflexivity. Qed.

Lemma keeps_raise {A : Type} (e : exn) : keeps R (raise (A := A) e).
Proof. intros w. reflexivity. Qed.

Lemma keeps_lift {A : Type} (r : result A) : keeps R (lift r).
Proof. intros w. reflexivity. Qed.

Lemma keeps_bind {A B : Type} (m : M A) (k : A -> M B) :
  keeps R m -> (forall a, keeps R (k a)) -> keeps R (bind m k).
Proof.
  intros Hm Hk w. rewrite bind_run. specialize (Hm w).
  destruct (m w) as [[a|e] w']; simpl in *; [|exact Hm].
  etransitivity; [exact Hm|apply Hk].
Qed.

Lemma keeps_try_except {A : Type} (m : M A) (h : exn -> M A) :
  keeps R m -> (forall e, keeps R (h e)) -> keeps R (try_except m h).
Proof.
  intros Hm Hh w. unfold try_except. specialize (Hm w).
  destruct (m w) as [[a|e] w']; simpl in *; [exact Hm|].
  etransitivity; [exact Hm|apply Hh].
Qed.

Lemma keeps_for_range_from {A : Type} (body : nat -> A -> M A) (n : nat) :
  (forall i a, keeps R (body i a)) ->
  forall start acc, keeps R (for_range_from start n body acc).
Proof.
  intros Hb. induction n as [|n IH]; intros start acc; simpl.
  - apply keeps_ret.
  - apply keeps_bind; [apply Hb|intros a; apply IH].
Qed.

Lemma keeps_modify (f : World -> World) :
  (forall w, R w (f w)) -> keeps R (modify f).
Proof. intros Hf w. apply Hf. Qed.

End Frames.

Global Instance same_link_preorder : PreOrder same_link.
Proof.
  split.
  - intros w. split; reflexivity.
  - intros a b c [H1 H2] [H3 H4]. split; congruence.
Qed.

Global Instance same_core_preorder : PreOrder same_core.
Proof.
  split.
  - intros w. repeat split; reflexivity.
  - intros a b c [[H1 H2] H5] [[H3 H4] H6]. repeat split; congruence.
Qed.

Lemma same_core_link (w w' : World) : same_core w w' -> same_link w w'.
Proof. intros [H _]. exact H. Qed.

Ltac primitive :=
  intros w; destruct w as [? ? ? ? ? ? ? ? ?]; simpl;
  repeat match goal with
         | |- context [match ?x with _ => _ end] => destruct x; simpl
         end;
  repeat split.

Lemma keeps_push_ACC (data : list Z) (t : F) : keeps same_core (push_ACC data t).
Proof. unfold push_ACC. primitive. Qed.
Lemma keeps_push_BVP (data : list F) (t : F) : keeps same_core (push_BVP data t).
Proof. unfold push_BVP. primitive. Qed.
Lemma keeps_push_GSR (data : list F) (t : F) : keeps same_core (push_GSR data t).
Proof. unfold push_GSR. primitive. Qed.
Lemma keeps_push_Tmp (data : list F) (t : F) : keeps same_core (push_Tmp data t).
Proof. unfold push_Tmp. primitive. Qed.
Lemma keeps_log_error (msg : string) (e : exn) : keeps same_core (_log_error msg e).
Proof. unfold _log_error, modify. primitive. Qed.
Lemma keeps_sleep (n : nat) : keeps same_core (sleep n).
Proof. unfold sleep, modify. primitive. Qed.
Lemma keeps_on_socket_id : keeps same_core (on_socket (fun s => s)).
Proof. unfold on_socket. primitive. Qed.
Lemma keeps_recv (net : recv_result) : keeps same_core (recv net).
Proof.
  unfold recv. apply keeps_bind; [typeclasses eauto|apply keeps_on_socket_id|].
  intros _. destruct net; [apply keeps_ret|apply keeps_raise]; typeclasses eauto.
Qed.
Lemma keeps_append_data (dev str : string) (t : F) (d : Data) :
  keeps same_link (append_data dev str t d).
Proof. unfold append_data, modify. primitive. Qed.

Create HintDb frames.
Hint Resolve keeps_ret keeps_raise keeps_lift keeps_modify
  keeps_push_ACC keeps_push_BVP keeps_push_GSR keeps_push_Tmp
  keeps_log_error keeps_sleep keeps_on_socket_id keeps_recv
  keeps_append_data : frames.

Ltac frame :=
  repeat first
    [ solve [auto with frames typeclass_instances]
    | apply keeps_bind; [typeclasses eauto| |intros ?]
    | apply keeps_try_except; [typeclasses eauto| |intros ?]
    | apply keeps_for_range_from; [typeclasses eauto|intros ? ?]
    | match goal with |- keeps _ (if ?b then _ else _) => destruct b end
    | match goal with |- keeps _ (match ?x with _ => _ end) => destruct x end ].

Lemma keeps_process (line : string) (acc : Lists) :
  keeps same_core (process line acc).
Proof. unfold process, scalar_branch. frame. Qed.

Lemma keeps_read_data (net : recv_result) : keeps same_core (_read_data net).
Proof.
  pose proof keeps_process.
  unfold _read_data, for_range, line_body. frame.
Qed.

Lemma keeps_core_link {A : Type} (m : M A) :
  keeps same_core m -> keeps same_link m.
Proof. intros H w. apply same_core_link, H. Qed.

Lemma keeps_iteration (net : recv_result) : keeps same_link (iteration net).
Proof.
  unfold iteration, for_range, dispatch, route.
  apply keeps_bind;
    [typeclasses eauto|apply keeps_core_link, keeps_read_data|].
  intros r. frame.
Qed.

(** ** Facts about the dispatch loop and [_run] *)

Lemma index_map {X Y : Type} (f : X -> Y) (l : list X) (i : nat) (x : X) :
  l !! i = Some x -> index (map f l) i = Ok (f x).
Proof. intros H. unfold index. now rewrite list_lookup_fmap, H. Qed.

Lemma dispatch_at (ss : list Sample) (i : nat) (s : Sample) (w : World) :
  ss !! i = Some s ->
  dispatch (lists_of ss).1.1 (lists_of ss).1.2 (lists_of ss).2 i tt w
  = (Ok tt, deliver w s).
Proof.
  intros H. unfold dispatch, route, lists_of, bind, lift. simpl.
  rewrite !(index_map _ _ _ _ H).
  destruct s as [[tag t] d]. unfold deliver. simpl.
  destruct (String.eqb_spec tag "E4_Acc") as [->|Hacc]; [reflexivity|].
  destruct (String.eqb_spec tag "E4_Bvp") as [->|Hbvp]; [reflexivity|].
  destruct (String.eqb_spec tag "E4_Gsr") as [->|Hgsr]; [reflexivity|].
  destruct (String.eqb_spec tag "E4_Temperature") as [->|Htmp]; reflexivity.
Qed.

Lemma for_range_from_S {A : Type} (start n : nat) (body : nat -> A -> M A)
    (acc : A) :
  for_range_from start (S n) body acc
  = bind (body start acc) (fun acc' => for_range_from (S start) n body acc').
Proof. reflexivity. Qed.

Lemma dispatch_from (l : list Sample) :
  forall (pre : list Sample) (w : World),
    for_range_from (length pre) (length l)
      (dispatch (lists_of (pre ++ l)).1.1 (lists_of (pre ++ l)).1.2
         (lists_of (pre ++ l)).2) tt w
    = (Ok tt, foldl deliver w l).
Proof.
  induction l as [|s l IH]; intros pre w; [reflexivity|].
  specialize (IH (pre ++ [s])).
  rewrite length_app, Nat.add_1_r, <- app_assoc in IH.
  change (length (s :: l)) with (S (length l)).
  rewrite for_range_from_S, bind_run.
  rewrite (dispatch_at _ _ s) by apply list_lookup_middle, eq_refl.
  apply IH.
Qed.

Lemma dispatch_loop (ss : list Sample) (w : World) :
  for_range (length (lists_of ss).1.1)
    (dispatch (lists_of ss).1.1 (lists_of ss).1.2 (lists_of ss).2) tt w
  = (Ok tt, delivered ss w).
Proof.
  unfold lists_of at 1. simpl. rewrite length_map.
  apply (dispatch_from ss []).
Qed.

(** One iteration of the loop on a received response. *)
Lemma iteration_received (response : string) (w : World) :
  ready w = true ->
  iteration (Received response) w =
    (Ok tt,
     match (parse_lines (batch_lines response)).2 with
     | None => delivered (parse_lines (batch_lines response)).1
                 (pushed (parse_lines (batch_lines response)).1 w)
     | Some e => faulted e (pushed (parse_lines (batch_lines response)).1 w)
     end).
Proof.
  intros Hw. unfold iteration.
  rewrite bind_run, (read_data_received _ _ Hw).
  destruct (parse_lines (batch_lines response)).2; [reflexivity|].
  set (ss := (parse_lines (batch_lines response)).1).
  change (let '(stream_type, time_s, data) := lists_of ss in
          for_range (length stream_type) (dispatch stream_type time_s data) tt)
    with (for_range (length (lists_of ss).1.1)
            (dispatch (lists_of ss).1.1 (lists_of ss).1.2 (lists_of ss).2) tt).
  apply dispatch_loop.
Qed.

Lemma iteration_raised (e : exn) (w : World) :
  defined (_socket w) = true ->
  iteration (Raised e) w = (Ok tt, faulted e w).
Proof.
  intros Hw. unfold iteration. now rewrite bind_run, (read_data_raised _ _ Hw).
Qed.

Lemma while_running_stopped (events : list event) (w : World) :
  _running w = false -> while_running events w = (Ok Finished, w).
Proof. intros H. destruct events; simpl; now rewrite H. Qed.

Lemma iteration_socket (net : recv_result) (w : World) :
  _socket (iteration net w).2 = _socket w.
Proof. apply (keeps_iteration net w). Qed.

Lemma while_running_socket (events : list event) :
  forall w, _socket (while_running events w).2 = _socket w.
Proof.
  induction events as [|ev events IH]; intros w; simpl.
  - destruct (negb (_running w)); reflexivity.
  - destruct (negb (_running w)); [reflexivity|].
    destruct ev as [net| |].
    + rewrite bind_run. pose proof (iteration_socket net w) as Hs.
      destruct (iteration net w) as [[[]|e] w']; simpl in *; [|exact Hs].
      now rewrite IH.
    + reflexivity.
    + rewrite bind_run. simpl. now rewrite IH.
Qed.

Lemma while_running_received (response : string) (events : list event)
    (w : World) :
  ready w = true -> _running w = true ->
  while_running (Recv (Received response) :: events) w
  = while_running events (iteration (Received response) w).2.
Proof.
  intros Hw Hr. simpl. rewrite Hr. simpl.
  now rewrite bind_run, (iteration_received _ _ Hw).
Qed.

Lemma while_running_raised (e : exn) (events : list event) (w : World) :
  defined (_socket w) = true -> _running w = true ->
  while_running (Recv (Raised e) :: events) w
  = while_running events (faulted e w).
Proof.
  intros Hw Hr. simpl. rewrite Hr. simpl.
  now rewrite bind_run, (iteration_raised _ _ Hw).
Qed.

Lemma run_outcome (events : list event) (w : World) (s : Socket) :
  _socket w = Some s ->
  ((_run events w).1 = Ok Blocked /\ _socket (_run events w).2 = Some s)
  \/ ((_run events w).1 = Ok Finished
      /\ _socket (_run events w).2 = Some (closed_once s)).
Proof.
  intros Hs. unfold _run.
  pose proof (while_running_socket events w) as Hk. rewrite Hs in Hk.
  destruct (while_running events w) as [[[]|e] w']; simpl in Hk.
  - right. unfold try_finally, try_except, lift, close, on_socket.
    rewrite Hk. simpl. split; reflexivity.
  - left. split; [reflexivity|exact Hk].
  - right. unfold try_finally, try_except, lift, close, on_socket.
    destruct (exn_eqb e KeyboardInterrupt); simpl; rewrite Hk; simpl;
      split; reflexivity.
Qed.

(** ** Line reassembly *)

(** C1, as amended. [_read_data] keeps no pending buffer: each chunk is
    split on its own. A chunk is some complete lines, each followed by the
    terminator, then a text without terminator (possibly empty); the loop
    of [_read_data] runs over exactly the complete lines of the chunk, so
    a sequence of chunks yields the complete lines of each chunk, in
    order, and the text after the last terminator of a chunk is discarded,
    not kept for the next chunk. When every chunk ends on a terminator the
    lines yielded are the original lines. *)
Theorem reassembly_per_chunk (chunks : list (list string * string)) :
  Forall (fun c => Forall no_newline c.1 /\ no_newline c.2) chunks ->
  concat (map (fun c => batch_lines (unlines c.1 +:+ c.2)) chunks)
  = concat (map fst chunks)
  /\ forall c acc w,
       In c chunks ->
       for_range (length (split_on LF (unlines c.1 +:+ c.2)) - 1)
         (line_body (split_on LF (unlines c.1 +:+ c.2))) acc w
       = for_each c.1 process acc w.
Proof.
  intros H. split.
  - induction H as [|c chunks [Hl Ht] _ IH]; [reflexivity|].
    simpl. now rewrite (batch_lines_unlines _ _ Hl Ht), IH.
  - intros c acc w Hc. rewrite Forall_forall in H.
    destruct (H c) as [Hl Ht]; [now apply list_elem_of_In|].
    now rewrite read_loop, (batch_lines_unlines _ _ Hl Ht).
Qed.

(** ** Errors of the receive *)

(** C4, as amended. A receive timeout is handled like every other
    exception of the receive, a connection reset included: [_read_data]
    logs it as an error, sleeps one second and returns
    [(None, None, None)], and the loop goes on to its next iteration. *)
Theorem receive_error_uniform (e : exn) (events : list event) (w : World) :
  defined (_socket w) = true ->
  _read_data (Raised e) w = (Ok None, faulted e w)
  /\ _log (faulted e w)
     = _log w ++ [LogError "ERROR reading from E4Streamer" e]
  /\ slept (faulted e w) = (slept w + 1)%nat
  /\ (_running w = true ->
      while_running (Recv (Raised e) :: events) w
      = while_running events (faulted e w)).
Proof.
  intros Hs. repeat split.
  - now apply read_data_raised.
  - intros Hr. now apply while_running_raised.
Qed.

(** C3, as amended. An error of the socket raised inside a read iteration
    does not end the run loop: it is handled inside [_read_data] and the
    loop goes on with the events that follow. When control does leave the
    loop (the flag is cleared, an interrupt or another exception is raised
    in the loop outside [_read_data]) [_run] returns without raising and
    the socket has been closed exactly once more; until then it has not
    been closed. *)
Theorem run_cleanup_once (e : exn) (events : list event) (w : World)
    (s : Socket) :
  _socket w = Some s ->
  (_running w = true ->
   _run (Recv (Raised e) :: events) w = _run events (faulted e w))
  /\ (((_run events w).1 = Ok Blocked /\ _socket (_run events w).2 = Some s)
      \/ ((_run events w).1 = Ok Finished
          /\ _socket (_run events w).2 = Some (closed_once s))).
Proof.
  intros Hs. split.
  - intros Hr. unfold _run.
    rewrite while_running_raised; [reflexivity| |exact Hr].
    now rewrite Hs.
  - now apply run_outcome.
Qed.

(** ** Connecting and quitting *)

(** C5, the code at the failing input. When opening the TCP connection
    raises, [_connect] has no handler: the exception leaves [_connect]
    instead of a [False] result, with [self._socket] left assigned to the
    socket object just created; no command has been sent on it. *)
Theorem connect_failure_raises (e : exn) (replies : list recv_result)
    (w : World) :
  _connect (Some e) replies w
  = (Raise e, set_socket (Some (mkSocket (Some 3) None [] 0%nat)) w).
Proof. destruct w. reflexivity. Qed.

(** C6, the code at the failing input. On a freshly constructed object
    [self._socket] is [None]: [stop()] then [quit()] raises
    [AttributeError] from [self._socket.close()], and no socket has been
    closed. *)
Theorem quit_before_connect_raises :
  (bind stop (fun _ => quit) __init__).1 = Raise AttributeError
  /\ _socket (bind stop (fun _ => quit) __init__).2 = None.
Proof. split; reflexivity. Qed.

(** After a successful [_connect], [stop()] then [quit()] returns and
    closes the socket. *)
Lemma quit_after_connect (w : World) (s : Socket) :
  _socket w = Some s ->
  (bind stop (fun _ => quit) w).1 = Ok tt
  /\ _socket (bind stop (fun _ => quit) w).2 = Some (closed_once s).
Proof.
  destruct w as [sock run oa ob og ot d lg sl]. simpl. intros ->.
  split; reflexivity.
Qed.

(** ** The record parser *)

Lemma replace_fixed (name : string) :
  has_char comma name = false -> replace name = name.
Proof.
  induction name as [|c name IH]; simpl; intros H; [reflexivity|].
  apply orb_false_iff in H as [Hc Hn].
  unfold replace_char. rewrite Hc, (IH Hn). reflexivity.
Qed.

Lemma replace_eq_name (name tag : string) :
  has_char dot name = false -> replace tag = name -> tag = name.
Proof.
  revert name. induction tag as [|c tag IH]; intros name Hn H; simpl in H.
  - exact H.
  - destruct name as [|c' name]; [discriminate|].
    injection H as Hc Ht. simpl in Hn.
    apply orb_false_iff in Hn as [Hc' Hn].
    rewrite (IH _ Hn Ht). f_equal.
    unfold replace_char in Hc.
    destruct (Ascii.eqb_spec c comma); [|exact Hc].
    subst c'. now rewrite Ascii.eqb_refl in Hc'.
Qed.

Lemma eqb_replace (name tag : string) :
  has_char comma name = false -> has_char dot name = false ->
  String.eqb (replace tag) name = String.eqb tag name.
Proof.
  intros Hc Hd.
  destruct (String.eqb_spec tag name) as [->|Hne].
  - rewrite (replace_fixed _ Hc). apply String.eqb_refl.
  - apply String.eqb_neq. intros H. apply Hne.
    now apply replace_eq_name.
Qed.

Lemma field_replace {A : Type} (conv : string -> option A)
    (tokens : list string) (k : nat) :
  field conv (map replace tokens) k = field conv tokens k.
Proof.
  unfold field, index. rewrite list_lookup_fmap.
  destruct (tokens !! k) as [t|]; simpl; [|reflexivity].
  now rewrite replace_idem.
Qed.

Lemma scalar_branch_replace (push : list F -> F -> M unit) (name tag : string)
    (tokens : list string) (acc : Lists) :
  has_char comma name = false -> has_char dot name = false ->
  scalar_branch push name (replace tag) (map replace tokens) acc
  = scalar_branch push name tag tokens acc.
Proof.
  intros Hc Hd. unfold scalar_branch.
  rewrite (eqb_replace _ _ Hc Hd), !field_replace.
  destruct (String.eqb_spec tag name) as [->|]; [|reflexivity].
  now rewrite (replace_fixed _ Hc).
Qed.

Lemma process_replace (line : string) (acc : Lists) (w : World) :
  process (replace line) acc w = process line acc w.
Proof.
  unfold process. rewrite split_replace.
  generalize (split line) as tokens. intros tokens.
  do 2 rewrite bind_run.
  unfold index. rewrite list_lookup_fmap.
  destruct (tokens !! 0%nat) as [tag|]; [|reflexivity].
  cbn [fmap option_fmap option_map lift].
  unfold scalar_branch.
  rewrite !(eqb_replace "E4_Acc"), !(eqb_replace "E4_Bvp"),
    !(eqb_replace "E4_Gsr"), !(eqb_replace "E4_Temperature") by reflexivity.
  rewrite !field_replace.
  destruct (String.eqb_spec tag "E4_Acc") as [->|Hacc]; [reflexivity|].
  destruct (String.eqb_spec tag "E4_Bvp") as [->|Hbvp]; [reflexivity|].
  destruct (String.eqb_spec tag "E4_Gsr") as [->|Hgsr]; [reflexivity|].
  destruct (String.eqb_spec tag "E4_Temperature") as [->|Htmp]; reflexivity.
Qed.

Lemma parse_replace (line : string) : parse (replace line) = parse line.
Proof.
  unfold parse. rewrite split_replace.
  generalize (split line) as tokens. intros tokens.
  unfold index. rewrite list_lookup_fmap.
  destruct (tokens !! 0%nat) as [tag|]; [|reflexivity].
  cbn [fmap option_fmap option_map rbind].
  rewrite !(eqb_replace "E4_Acc"), !(eqb_replace "E4_Bvp"),
    !(eqb_replace "E4_Gsr"), !(eqb_replace "E4_Temperature") by reflexivity.
  rewrite !field_replace.
  destruct (String.eqb_spec tag "E4_Acc") as [->|Hacc]; [reflexivity|].
  destruct (String.eqb_spec tag "E4_Bvp") as [->|Hbvp]; [reflexivity|].
  destruct (String.eqb_spec tag "E4_Gsr") as [->|Hgsr]; [reflexivity|].
  destruct (String.eqb_spec tag "E4_Temperature") as [->|Htmp]; reflexivity.
Qed.

Lemma for_each_replace (lines : list string) :
  forall (acc : Lists) (w : World),
    for_each (map replace lines) process acc w = for_each lines process acc w.
Proof.
  induction lines as [|line lines IH]; intros acc w; [reflexivity|].
  simpl. rewrite !bind_run, process_replace.
  destruct (process line acc w) as [[acc'|e] w']; [apply IH|reflexivity].
Qed.

Lemma read_data_unfold (response : string) (w : World) :
  defined (_socket w) = true ->
  _read_data (Received response) w =
    match for_each (batch_lines response) process ([], [], []) w with
    | (Ok acc, w') => (Ok (Some acc), w')
    | (Raise e, w') => (Ok None, faulted e w')
    end.
Proof.
  intros Hw. unfold _read_data, try_except.
  rewrite bind_run.
  assert (Hrecv : recv (Received response) w = (Ok response, w)).
  { destruct w as [[s|] run oa ob og ot d lg sl]; [reflexivity|discriminate]. }
  rewrite Hrecv, bind_run, read_loop.
  destruct (for_each (batch_lines response) process ([], [], []) w)
    as [[acc|e] w']; reflexivity.
Qed.

Lemma read_data_for_each (r1 r2 : string) (w : World) :
  (forall acc w, for_each (batch_lines r1) process acc w
                 = for_each (batch_lines r2) process acc w) ->
  _read_data (Received r1) w = _read_data (Received r2) w.
Proof.
  intros H. destruct (_socket w) as [s|] eqn:Hs.
  - rewrite !read_data_unfold, H by now rewrite Hs. reflexivity.
  - now rewrite !read_data_no_socket.
Qed.

Lemma read_data_replace (response : string) (w : World) :
  _read_data (Received (replace response)) w
  = _read_data (Received response) w.
Proof.
  apply read_data_for_each. intros acc v.
  rewrite batch_lines_replace. apply for_each_replace.
Qed.

(** C7. A line written with commas and the same line written with dots
    (every comma replaced by a dot) are handled identically by the loop
    body: same exception or same sample, same pushes. The same holds of
    their outcomes as values ([parse]) and of whole responses, and in
    particular of the two lines of the spec's example. *)
Theorem decimal_separator (line response : string) (acc : Lists)
    (w : World) :
  process (replace line) acc w = process line acc w
  /\ parse (replace line) = parse line
  /\ _read_data (Received (replace response)) w
     = _read_data (Received response) w
  /\ parse "E4_Bvp 12,500 3,14" = parse "E4_Bvp 12.500 3.14"
  /\ process "E4_Bvp 12,500 3,14" acc w = process "E4_Bvp 12.500 3.14" acc w.
Proof.
  split; [apply process_replace|].
  split; [apply parse_replace|].
  split; [apply read_data_replace|].
  split.
  - apply (parse_replace "E4_Bvp 12,500 3,14").
  - apply (process_replace "E4_Bvp 12,500 3,14").
Qed.

(** ** Unknown tags *)

Lemma process_unknown (line tag : string) (rest : list string)
    (acc : Lists) (w : World) :
  split line = tag :: rest ->
  existsb (String.eqb tag) vocabulary = false ->
  process line acc w = (Ok acc, w).
Proof.
  intros Hs Hv. unfold process. rewrite Hs.
  simpl in Hv. rewrite !orb_false_iff in Hv.
  destruct Hv as (H1 & H2 & H3 & H4 & _).
  unfold scalar_branch. rewrite bind_run. simpl.
  rewrite H1, H2, H3, H4. reflexivity.
Qed.

Lemma for_each_skip (line : string) (before after : list string) :
  (forall acc w, process line acc w = (Ok acc, w)) ->
  forall acc w,
    for_each (before ++ line :: after) process acc w
    = for_each (before ++ after) process acc w.
Proof.
  intros Hl. induction before as [|b before IH]; intros acc w; simpl.
  - now rewrite bind_run, Hl.
  - rewrite !bind_run.
    destruct (process b acc w) as [[acc'|e] w']; [apply IH|reflexivity].
Qed.

(** C8. A line whose first token is outside the four tags makes the loop
    body do nothing: no exception, no push, nothing appended to the lists.
    In a batch the other lines are handled as if the line were not there,
    by [_read_data] and by the whole iteration of the run loop: the line
    contributes no dispatched sample and no fault. *)
Theorem unknown_tag_skipped (line tag : string) (rest : list string)
    (before after : list string) (tail : string) (acc : Lists) (w : World) :
  split line = tag :: rest ->
  existsb (String.eqb tag) vocabulary = false ->
  Forall no_newline (before ++ line :: after) ->
  no_newline tail ->
  process line acc w = (Ok acc, w)
  /\ parse line = Ok None
  /\ _read_data (Received (unlines (before ++ line :: after) +:+ tail)) w
     = _read_data (Received (unlines (before ++ after) +:+ tail)) w
  /\ iteration (Received (unlines (before ++ line :: after) +:+ tail)) w
     = iteration (Received (unlines (before ++ after) +:+ tail)) w.
Proof.
  intros Hs Hv Hl Ht.
  assert (Hl' : Forall no_newline (before ++ after)).
  { apply Forall_app in Hl as [Hb Ha]. apply Forall_app. split; [exact Hb|].
    now apply Forall_cons_1 in Ha as [_ Ha]. }
  assert (Hr : _read_data (Received (unlines (before ++ line :: after) +:+ tail)) w
               = _read_data (Received (unlines (before ++ after) +:+ tail)) w).
  { apply read_data_for_each. intros acc' w'.
    rewrite (batch_lines_unlines _ _ Hl Ht), (batch_lines_unlines _ _ Hl' Ht).
    apply for_each_skip. intros a v. now apply (process_unknown _ tag rest). }
  split; [now apply (process_unknown _ tag rest)|].
  split; [|split].
  - unfold parse. rewrite Hs. simpl in Hv |- *.
    rewrite !orb_false_iff in Hv. destruct Hv as (H1 & H2 & H3 & H4 & _).
    now rewrite H1, H2, H3, H4.
  - exact Hr.
  - unfold iteration. now rewrite !bind_run, Hr.
Qed.

(** ** Routing *)

Lemma vocabulary_cases (tag : string) :
  existsb (String.eqb tag) vocabulary = true ->
  tag = "E4_Acc" \/ tag = "E4_Bvp" \/ tag = "E4_Gsr" \/ tag = "E4_Temperature".
Proof.
  simpl. rewrite !orb_true_iff, !String.eqb_eq. intuition discriminate.
Qed.

Lemma vocabulary_In (name : string) :
  In name vocabulary -> existsb (String.eqb name) vocabulary = true.
Proof.
  intros H. apply existsb_exists. exists name.
  split; [exact H|apply String.eqb_refl].
Qed.

Lemma sink_inj (a b : string) :
  existsb (String.eqb a) vocabulary = true -> In b vocabulary ->
  sink a = sink b -> a = b.
Proof.
  intros Ha Hb. apply vocabulary_cases in Ha.
  simpl in Hb.
  destruct Ha as [-> | [-> | [-> | ->]]];
    destruct Hb as [<- | [<- | [<- | [<- | []]]]];
    intros H; try reflexivity; discriminate H.
Qed.

Lemma channel_deliver (name : string) (s : Sample) (w : World) :
  In name vocabulary ->
  channel name (deliver w s)
  = channel name w ++ (if String.eqb s.1.1 name then [(s.1.2, s.2)] else []).
Proof.
  intros Hn. unfold deliver.
  destruct (existsb (String.eqb s.1.1) vocabulary) eqn:Hv.
  - unfold channel. change (_data (set_data ?d w)) with d.
    destruct (String.eqb_spec s.1.1 name) as [->|Hne].
    + now rewrite lookup_insert_eq.
    + rewrite lookup_insert_ne; [now rewrite app_nil_r|].
      intros H. apply Hne. now apply sink_inj.
  - destruct (String.eqb_spec s.1.1 name) as [E|Hne];
      [|now rewrite app_nil_r].
    rewrite E, (vocabulary_In _ Hn) in Hv. discriminate.
Qed.

Lemma entries_cons (name : string) (s : Sample) (ss : list Sample) :
  entries name (s :: ss)
  = (if String.eqb s.1.1 name then [(s.1.2, s.2)] else [])
    ++ entries name ss.
Proof. unfold entries. simpl. now destruct (String.eqb s.1.1 name). Qed.

Lemma channel_delivered (name : string) (ss : list Sample) :
  In name vocabulary ->
  forall w, channel name (delivered ss w) = channel name w ++ entries name ss.
Proof.
  intros Hn. induction ss as [|s ss IH]; intros w.
  - unfold delivered, entries. simpl. now rewrite app_nil_r.
  - unfold delivered in *. simpl foldl.
    rewrite IH, (channel_deliver _ _ _ Hn), entries_cons.
    now rewrite <- app_assoc.
Qed.

Lemma other_keys_deliver (k : string * string) (s : Sample) (w : World) :
  (forall name, In name vocabulary -> k <> sink name) ->
  _data (deliver w s) !! k = _data w !! k.
Proof.
  intros Hk. unfold deliver.
  destruct (existsb (String.eqb s.1.1) vocabulary) eqn:Hv; [|reflexivity].
  change (_data (set_data ?d w)) with d.
  apply lookup_insert_ne. intros H. apply (Hk s.1.1); [|now symmetry].
  apply vocabulary_cases in Hv. simpl.
  destruct Hv as [E | [E | [E | E]]]; rewrite E; tauto.
Qed.

Lemma other_keys_delivered (k : string * string) (ss : list Sample) :
  (forall name, In name vocabulary -> k <> sink name) ->
  forall w, _data (delivered ss w) !! k = _data w !! k.
Proof.
  intros Hk. induction ss as [|s ss IH]; intros w; [reflexivity|].
  unfold delivered in *. simpl foldl.
  now rewrite IH, other_keys_deliver.
Qed.

Lemma deliver_outlets (w : World) (s : Sample) :
  outletACC (deliver w s) = outletACC w
  /\ outletBVP (deliver w s) = outletBVP w
  /\ outletGSR (deliver w s) = outletGSR w
  /\ outletTmp (deliver w s) = outletTmp w.
Proof.
  unfold deliver. destruct (existsb (String.eqb s.1.1) vocabulary);
    repeat split.
Qed.

Lemma delivered_outlets (ss : list Sample) :
  forall w,
    outletACC (delivered ss w) = outletACC w
    /\ outletBVP (delivered ss w) = outletBVP w
    /\ outletGSR (delivered ss w) = outletGSR w
    /\ outletTmp (delivered ss w) = outletTmp w.
Proof.
  induction ss as [|s ss IH]; intros w; [repeat split|].
  unfold delivered in *. simpl foldl.
  destruct (IH (deliver w s)) as (H1 & H2 & H3 & H4).
  destruct (deliver_outlets w s) as (G1 & G2 & G3 & G4).
  rewrite H1, H2, H3, H4, G1, G2, G3, G4. repeat split.
Qed.

(** Every sample [parse] recognises carries one of the four tags. *)
Lemma parse_tag (line : string) (s : Sample) :
  parse line = Ok (Some s) -> existsb (String.eqb s.1.1) vocabulary = true.
Proof.
  unfold parse, rbind.
  destruct (index (split line) 0) as [tag|e]; [|discriminate].
  destruct (String.eqb_spec tag "E4_Acc") as [->|Hacc].
  { repeat match goal with
           | |- context [field ?c ?t ?k] => destruct (field c t k)
           end; try discriminate.
    intros [= <-]. reflexivity. }
  destruct (String.eqb tag "E4_Bvp" || String.eqb tag "E4_Gsr"
            || String.eqb tag "E4_Temperature") eqn:Hv; [|discriminate].
  repeat match goal with
         | |- context [field ?c ?t ?k] => destruct (field c t k)
         end; try discriminate.
  intros [= <-]. simpl. rewrite !orb_true_iff in *. tauto.
Qed.

Lemma parse_lines_tags (lines : list string) :
  Forall (fun s : Sample => existsb (String.eqb s.1.1) vocabulary = true)
    (parse_lines lines).1.
Proof.
  induction lines as [|line lines IH]; simpl; [constructor|].
  destruct (parse line) as [[s|]|e] eqn:E; simpl; [|exact IH|constructor].
  constructor; [now apply (parse_tag line)|exact IH].
Qed.

Lemma entries_partition (ss : list Sample) :
  Forall (fun s : Sample => existsb (String.eqb s.1.1) vocabulary = true) ss ->
  (length (entries "E4_Acc" ss) + length (entries "E4_Bvp" ss)
   + length (entries "E4_Gsr" ss) + length (entries "E4_Temperature" ss)
   = length ss)%nat.
Proof.
  induction 1 as [|s ss Hs _ IH]; [reflexivity|].
  rewrite !entries_cons, !length_app.
  set (a := length (entries "E4_Acc" ss)) in *.
  set (b := length (entries "E4_Bvp" ss)) in *.
  set (g := length (entries "E4_Gsr" ss)) in *.
  set (t := length (entries "E4_Temperature" ss)) in *.
  apply vocabulary_cases in Hs.
  destruct Hs as [E|[E|[E|E]]]; rewrite E; simpl; lia.
Qed.

(** C9. On a batch in which no line faults, one iteration of the run
    loop returns normally and routes every recognised sample to the sink
    and to the outlet of its own tag and to no other: the sink of each tag
    gains exactly the samples of that tag, in order; no other entry of the
    store changes; each outlet gains exactly the pushes of its tag; and
    the four sinks together gain as many entries as there are samples. *)
Theorem demux_routing (response : string) (w : World) :
  ready w = true ->
  (parse_lines (batch_lines response)).2 = None ->
  let ss := (parse_lines (batch_lines response)).1 in
  let w' := (iteration (Received response) w).2 in
  (iteration (Received response) w).1 = Ok tt
  /\ (forall name, In name vocabulary ->
                   channel name w' = channel name w ++ entries name ss)
  /\ (forall k, (forall name, In name vocabulary -> k <> sink name) ->
                _data w' !! k = _data w !! k)
  /\ outletACC w' = extend (outletACC w) (acc_pushes ss)
  /\ outletBVP w' = extend (outletBVP w) (scalar_pushes "E4_Bvp" ss)
  /\ outletGSR w' = extend (outletGSR w) (scalar_pushes "E4_Gsr" ss)
  /\ outletTmp w' = extend (outletTmp w) (scalar_pushes "E4_Temperature" ss)
  /\ (length (entries "E4_Acc" ss) + length (entries "E4_Bvp" ss)
      + length (entries "E4_Gsr" ss) + length (entries "E4_Temperature" ss)
      = length ss)%nat.
Proof.
  intros Hw Hok ss w'. subst w'.
  rewrite (iteration_received _ _ Hw), Hok. fold ss. simpl.
  split; [reflexivity|].
  split; [intros name Hn; now rewrite (channel_delivered _ _ Hn)|].
  split; [intros k Hk; now rewrite (other_keys_delivered _ _ Hk)|].
  destruct (delivered_outlets ss (pushed ss w)) as (H1 & H2 & H3 & H4).
  rewrite H1, H2, H3, H4.
  repeat (split; [reflexivity|]).
  apply entries_partition, parse_lines_tags.
Qed.

(** ** Faulty lines *)

Lemma faulty_parse (line : string) :
  faulty line = true <-> exists e, parse line = Raise e.
Proof.
  unfold faulty, parse, rbind.
  destruct (split line) as [|tag rest]; [split; eauto|].
  change (index (tag :: rest) 0) with (Ok (A := string) tag). cbv iota beta.
  unfold numeric, arity.
  destruct (String.eqb_spec tag "E4_Acc") as [->|Hacc].
  { destruct rest as [|t1 [|t2 [|t3 [|t4 rest]]]]; simpl;
      unfold field, index; simpl;
      repeat match goal with
             | |- context [float ?t] => destruct (float t); simpl
             | |- context [int ?t] => destruct (int t); simpl
             end;
      split; try discriminate; eauto; intros [e [=]]. }
  assert (Hv : existsb (String.eqb tag) vocabulary
               = (String.eqb tag "E4_Bvp" || String.eqb tag "E4_Gsr"
                  || String.eqb tag "E4_Temperature")).
  { simpl. destruct (String.eqb_spec tag "E4_Acc"); [contradiction|].
    now rewrite orb_false_r, !orb_assoc. }
  rewrite Hv.
  destruct (String.eqb tag "E4_Bvp" || String.eqb tag "E4_Gsr"
            || String.eqb tag "E4_Temperature");
    [|split; [discriminate|intros [e [=]]]].
  destruct (String.eqb_spec tag "E4_Acc"); [contradiction|].
  destruct rest as [|t1 [|t2 rest]]; simpl;
    unfold field, index; simpl;
    repeat match goal with
           | |- context [float ?t] => destruct (float t); simpl
           end;
    split; try discriminate; eauto; intros [e [=]].
Qed.

Lemma parse_lines_sound (lines : list string) :
  forallb (fun l => negb (faulty l)) lines = true ->
  (parse_lines lines).2 = None.
Proof.
  induction lines as [|line lines IH]; simpl; [reflexivity|].
  intros H. apply andb_true_iff in H as [Hl Hr].
  destruct (parse line) as [o|e] eqn:E; simpl; [now apply IH|].
  assert (Hf : faulty line = true) by (apply faulty_parse; eauto).
  rewrite Hf in Hl. discriminate.
Qed.

Lemma parse_lines_fault (before after : list string) (line : string)
    (e : exn) :
  (parse_lines before).2 = None -> parse line = Raise e ->
  parse_lines (before ++ line :: after) = ((parse_lines before).1, Some e).
Proof.
  intros Hb Hl. induction before as [|b before IH]; simpl in *.
  - now rewrite Hl.
  - destruct (parse b) as [o|e']; simpl in *; [|discriminate].
    now rewrite (IH Hb).
Qed.

(** C2, as amended. A transient line error is isolated to its own batch,
    not to its own line. When a batch holds a faulty line (no token, or a
    known tag with too few tokens or with a required token that is not a
    number) after lines that are not faulty, the loop body raises on that
    line: the samples of the earlier lines have been pushed to their
    outlets, no later line is handled, [_read_data] logs the error, sleeps
    one second and returns [(None, None, None)], and nothing of the batch
    reaches the store. The fault goes no further: the iteration returns
    normally and the run loop goes on with the events that follow. *)
Theorem line_fault_aborts_batch (before after : list string)
    (line tail : string) (events : list event) (w : World) :
  ready w = true -> _running w = true ->
  Forall no_newline (before ++ line :: after) -> no_newline tail ->
  forallb (fun l => negb (faulty l)) before = true ->
  faulty line = true ->
  exists e,
    let response := unlines (before ++ line :: after) +:+ tail in
    let w' := faulted e (pushed (parse_lines before).1 w) in
    parse line = Raise e
    /\ _read_data (Received response) w = (Ok None, w')
    /\ iteration (Received response) w = (Ok tt, w')
    /\ _data w' = _data w
    /\ while_running (Recv (Received response) :: events) w
       = while_running events w'.
Proof.
  intros Hw Hr Hl Ht Hb Hf.
  apply faulty_parse in Hf as [e He]. exists e.
  pose proof (parse_lines_fault before after line e
                (parse_lines_sound _ Hb) He) as Hp.
  cbv zeta.
  assert (Hi : iteration (Received (unlines (before ++ line :: after) +:+ tail)) w
               = (Ok tt, faulted e (pushed (parse_lines before).1 w))).
  { rewrite (iteration_received _ _ Hw), (batch_lines_unlines _ _ Hl Ht), Hp.
    reflexivity. }
  split; [exact He|].
  split.
  { rewrite (read_data_received _ _ Hw), (batch_lines_unlines _ _ Hl Ht), Hp.
    reflexivity. }
  split; [exact Hi|].
  split; [reflexivity|].
  now rewrite (while_running_received _ _ _ Hw Hr), Hi.
Qed.

(** C10. When a line of a batch raises after earlier lines that do not,
    the samples recognised in those earlier lines have been pushed to
    their LSL outlets, [_read_data] returns [(None, None, None)], and the
    iteration appends nothing of the batch to the store: after the
    iteration the outlets are ahead of the channels by the samples of the
    lines before the fault. *)
Theorem fault_splits_consumers (response : string)
    (before after : list string) (line : string) (e : exn) (w : World) :
  ready w = true ->
  batch_lines response = before ++ line :: after ->
  (parse_lines before).2 = None ->
  parse line = Raise e ->
  let ss := (parse_lines before).1 in
  let w' := (iteration (Received response) w).2 in
  (_read_data (Received response) w).1 = Ok None
  /\ (iteration (Received response) w).1 = Ok tt
  /\ outletACC w' = extend (outletACC w) (acc_pushes ss)
  /\ outletBVP w' = extend (outletBVP w) (scalar_pushes "E4_Bvp" ss)
  /\ outletGSR w' = extend (outletGSR w) (scalar_pushes "E4_Gsr" ss)
  /\ outletTmp w' = extend (outletTmp w) (scalar_pushes "E4_Temperature" ss)
  /\ _data w' = _data w.
Proof.
  intros Hw Hb Hp He ss w'. subst ss w'.
  rewrite (read_data_received _ _ Hw), (iteration_received _ _ Hw), Hb,
    (parse_lines_fault _ _ _ _ Hp He).
  repeat split.
Qed.

(** ** The handshake of [_connect] *)

(** X1. When the connection opens and the bridge answers each of the eight
    commands, [_connect] returns [True]: the socket has the timeout 3, is
    connected to the fixed address and has been sent the eight commands in
    the order pause, subscriptions, resume; the four outlets are fresh and
    empty whatever they held before; the success is logged. The running
    flag, the store and the time slept are untouched, replies beyond the
    eighth are not read, and the socket the object held before is replaced
    without being closed. *)
Theorem connect_success (texts : list string) (rest : list recv_result)
    (w : World) :
  length texts = 8%nat ->
  _connect None (map Received texts ++ rest) w
  = (Ok true,
     mkWorld
       (Some (mkSocket (Some 3) (Some (_E4_network_ip, _E4_network_port))
                handshake_commands 0))
       (_running w) (Some []) (Some []) (Some []) (Some [])
       (_data w)
       (_log w ++ [LogStatus "Successfully connected to the E4 streamer."])
       (slept w)).
Proof.
  intros H.
  destruct texts as [|t1 [|t2 [|t3 [|t4 [|t5 [|t6 [|t7 [|t8 [|t9 ts]]]]]]]]];
    try discriminate H.
  destruct w. reflexivity.
Qed.

(** X2. When a receive of the handshake raises after [k] answered commands
    (or no reply is left, which is a receive timeout), [_connect] raises
    that exception: exactly the first [k + 1] commands have been sent, the
    outlets are as they were (none is created), nothing is logged, and the
    new socket stays assigned, connected and not closed. *)
Theorem connect_handshake_failure (texts : list string)
    (rest : list recv_result) (e : exn) (w : World) :
  (length texts < 8)%nat ->
  let failed :=
    mkWorld
      (Some (mkSocket (Some 3) (Some (_E4_network_ip, _E4_network_port))
               (take (S (length texts)) handshake_commands) 0))
      (_running w) (outletACC w) (outletBVP w) (outletGSR w) (outletTmp w)
      (_data w) (_log w) (slept w) in
  _connect None (map Received texts ++ Raised e :: rest) w = (Raise e, failed)
  /\ _connect None (map Received texts) w = (Raise SocketTimeout, failed).
Proof.
  intros H.
  destruct texts as [|t1 [|t2 [|t3 [|t4 [|t5 [|t6 [|t7 [|t8 ts]]]]]]]];
    simpl in H; try lia; destruct w; split; reflexivity.
Qed.

(** ** [_read_data] in any world *)

Global Instance same_journal_preorder : PreOrder same_journal.
Proof.
  split.
  - intros w. split; reflexivity.
  - intros a b c [H1 H2] [H3 H4]. split; congruence.
Qed.

Lemma journal_push_ACC (data : list Z) (t : F) :
  keeps same_journal (push_ACC data t).
Proof. unfold push_ACC. primitive. Qed.
Lemma journal_push_BVP (data : list F) (t : F) :
  keeps same_journal (push_BVP data t).
Proof. unfold push_BVP. primitive. Qed.
Lemma journal_push_GSR (data : list F) (t : F) :
  keeps same_journal (push_GSR data t).
Proof. unfold push_GSR. primitive. Qed.
Lemma journal_push_Tmp (data : list F) (t : F) :
  keeps same_journal (push_Tmp data t).
Proof. unfold push_Tmp. primitive. Qed.
Lemma journal_on_socket_id : keeps same_journal (on_socket (fun s => s)).
Proof. unfold on_socket. primitive. Qed.
Lemma journal_recv (net : recv_result) : keeps same_journal (recv net).
Proof.
  unfold recv.
  apply keeps_bind; [typeclasses eauto|apply journal_on_socket_id|].
  intros _. destruct net; [apply keeps_ret|apply keeps_raise]; typeclasses eauto.
Qed.

Hint Resolve journal_push_ACC journal_push_BVP journal_push_GSR
  journal_push_Tmp journal_on_socket_id journal_recv : frames.

Lemma journal_process (line : string) (acc : Lists) :
  keeps same_journal (process line acc).
Proof. unfold process, scalar_branch. frame. Qed.

Lemma journal_read_loop (samples : list string) (acc : Lists) :
  keeps same_journal
    (for_range (length samples - 1) (line_body samples) acc).
Proof.
  pose proof journal_process.
  unfold for_range, line_body. frame.
Qed.

Lemma core_read_loop (samples : list string) (acc : Lists) :
  keeps same_core (for_range (length samples - 1) (line_body samples) acc).
Proof.
  pose proof keeps_process.
  unfold for_range, line_body. frame.
Qed.

(** X3. [_read_data] never raises, whatever the receive yields and
    whatever the world (no socket, no outlets): it returns the three lists
    or [(None, None, None)]. It returns [(None, None, None)] exactly when it
    has logged one error and slept one second; when it returns lists the
    log and the time slept are unchanged. In both cases the socket, the
    running flag and the store are untouched. *)
Theorem read_data_never_raises (net : recv_result) (w : World) :
  exists r,
    (_read_data net w).1 = Ok r
    /\ match r with
       | Some _ => same_journal w (_read_data net w).2
       | None =>
           exists e,
             _log (_read_data net w).2
             = _log w ++ [LogError "ERROR reading from E4Streamer" e]
             /\ slept (_read_data net w).2 = (slept w + 1)%nat
       end
    /\ same_core w (_read_data net w).2.
Proof.
  pose proof (keeps_read_data net w) as Hcore.
  unfold _read_data, try_except in *. rewrite bind_run in *.
  pose proof (journal_recv net w) as Hj1.
  destruct (recv net w) as [[response|e] w1]; simpl in Hj1.
  - rewrite bind_run in *.
    pose proof (journal_read_loop (split_on LF response) ([], [], []) w1) as Hj2.
    destruct (for_range (length (split_on LF response) - 1)
                (line_body (split_on LF response)) ([], [], []) w1)
      as [[acc|e] w2]; simpl in Hj2.
    + exists (Some acc). split; [reflexivity|]. split; [|exact Hcore].
      simpl. etransitivity; eassumption.
    + exists None. split; [reflexivity|]. split; [|exact Hcore].
      exists e. destruct Hj1 as [L1 S1], Hj2 as [L2 S2]. simpl.
      rewrite L2, L1, S2, S1. split; reflexivity.
  - exists None. split; [reflexivity|]. split; [|exact Hcore].
    exists e. destruct Hj1 as [L1 S1]. simpl.
    rewrite L1, S1. split; reflexivity.
Qed.

Ltac sound_branch :=
  unfold bind, lift, rbind, ret; simpl;
  repeat (match goal with
          | |- context [field ?c ?t ?k] => destruct (field c t k)
          end; simpl; try discriminate);
  unfold push_ACC, push_BVP, push_GSR, push_Tmp;
  repeat (match goal with
          | |- context [match ?o with Some _ => _ | None => _ end] =>
              destruct o
          end; simpl; try discriminate);
  intros [= <- <-]; eexists; split; reflexivity.

(** What the loop body returns on a line is what [parse] says of the line,
    in any world. *)
Lemma process_sound (line : string) (acc acc' : Lists) (w w' : World) :
  process line acc w = (Ok acc', w') ->
  exists o, parse line = Ok o /\ acc' = record_all acc (option_list o).
Proof.
  unfold process, parse.
  rewrite bind_run. unfold lift at 1, rbind at 1.
  destruct (index (split line) 0) as [tag|e]; [|discriminate].
  destruct (String.eqb_spec tag "E4_Acc") as [->|Hacc].
  { unfold scalar_branch. sound_branch. }
  unfold scalar_branch, bind at 1, ret at 1.
  destruct (String.eqb_spec tag "E4_Bvp") as [->|Hbvp]; [sound_branch|].
  destruct (String.eqb_spec tag "E4_Gsr") as [->|Hgsr]; [sound_branch|].
  destruct (String.eqb_spec tag "E4_Temperature") as [->|Htmp]; [sound_branch|].
  unfold bind, ret. simpl. intros [= <- <-].
  exists None. split; [reflexivity|]. now rewrite record_all_nil.
Qed.

Lemma for_each_sound (lines : list string) :
  forall (acc acc' : Lists) (w w' : World),
    for_each lines process acc w = (Ok acc', w') ->
    (parse_lines lines).2 = None
    /\ acc' = record_all acc (parse_lines lines).1.
Proof.
  induction lines as [|line lines IH]; intros acc acc' w w'; simpl.
  - intros [= <- <-]. split; [reflexivity|now rewrite record_all_nil].
  - rewrite bind_run.
    destruct (process line acc w) as [[acc1|e] w1] eqn:E; [|discriminate].
    apply process_sound in E as (o & -> & ->). simpl.
    intros H. apply IH in H as [H1 ->].
    split; [exact H1|now rewrite record_all_app].
Qed.

(** X4. Whatever the world, when [_read_data] returns lists no line of the
    batch has faulted and the lists are exactly the recognised samples of
    the batch, in order: the three lists have the same length and every
    entry of the first is one of the four tags. *)
Theorem read_data_sound (net : recv_result) (w : World)
    (stream_type : list string) (time_s : list F) (data : list Data) :
  (_read_data net w).1 = Ok (Some (stream_type, time_s, data)) ->
  exists response,
    net = Received response
    /\ (parse_lines (batch_lines response)).2 = None
    /\ (stream_type, time_s, data)
       = lists_of (parse_lines (batch_lines response)).1
    /\ length stream_type = length time_s
    /\ length time_s = length data
    /\ Forall (fun tag => In tag vocabulary) stream_type.
Proof.
  destruct net as [response|e].
  - destruct (_socket w) as [s|] eqn:Hs.
    + rewrite read_data_unfold by now rewrite Hs.
      destruct (for_each (batch_lines response) process ([], [], []) w)
        as [[acc|e] w'] eqn:E; [|discriminate].
      apply for_each_sound in E as [Hok ->]. simpl.
      intros [= <- <- <-]. exists response.
      split; [reflexivity|]. split; [exact Hok|]. split; [reflexivity|].
      rewrite !length_map. split; [reflexivity|]. split; [reflexivity|].
      apply Forall_fmap.
      eapply Forall_impl; [apply parse_lines_tags|].
      intros s0 Hv. apply vocabulary_cases in Hv. simpl.
      destruct Hv as [E | [E | [E | E]]]; rewrite E; tauto.
    + rewrite read_data_no_socket by exact Hs. discriminate.
  - destruct (_socket w) as [s|] eqn:Hs.
    + rewrite read_data_raised by now rewrite Hs. discriminate.
    + rewrite read_data_no_socket by exact Hs. discriminate.
Qed.

(** X5. The dispatch loop of [_run] never indexes out of range: in every
    world and for every outcome of the receive one iteration of the loop
    returns normally (with [append_data] taken not to raise), so the loop
    itself raises only the [KeyboardInterrupt] delivered to it. *)
Theorem iteration_never_raises (net : recv_result) (events : list event)
    (w : World) :
  (iteration net w).1 = Ok tt
  /\ forall e, (while_running events w).1 = Raise e ->
               e = KeyboardInterrupt /\ In Interrupt events.
Proof.
  assert (Hit : forall net w, (iteration net w).1 = Ok tt).
  { clear. intros net w. unfold iteration. rewrite bind_run.
    destruct (read_data_never_raises net w) as (r & Hr & _).
    pose proof (read_data_sound net w) as Hs.
    destruct (_read_data net w) as [[[[[st ts] ds]|]|e] w'];
      simpl in Hr; [|reflexivity|discriminate].
    destruct (Hs st ts ds eq_refl) as (response & _ & _ & Hl & _).
    change (for_range (length st) (dispatch st ts ds) tt w')
      with (for_range (length (st, ts, ds).1.1)
              (dispatch (st, ts, ds).1.1 (st, ts, ds).1.2 (st, ts, ds).2) tt w').
    rewrite Hl. now rewrite dispatch_loop. }
  split; [apply Hit|].
  revert w. induction events as [|ev events IH]; intros w e; simpl.
  - destruct (negb (_running w)); discriminate.
  - destruct (negb (_running w)); [discriminate|].
    destruct ev as [net'| |].
    + rewrite bind_run. pose proof (Hit net' w) as Hi.
      destruct (iteration net' w) as [[[]|e'] w']; simpl in Hi;
        [|discriminate].
      intros H. apply IH in H as [-> Hin]. split; [reflexivity|now right].
    + intros [= <-]. split; [reflexivity|now left].
    + rewrite bind_run. simpl.
      intros H. apply IH in H as [-> Hin]. split; [reflexivity|now right].
Qed.

(** ** Edge cases of the run loop *)

Lemma batch_lines_unterminated (response : string) :
  no_newline response -> batch_lines response = [].
Proof.
  intros H. unfold batch_lines. now rewrite (split_on_no_sep _ _ H).
Qed.

(** X6. A response without terminator, the empty response of a closed
    connection included, is ignored silently: [_read_data] returns three
    empty lists and changes nothing (no error logged, no sleep), the
    iteration changes nothing, and a run loop that keeps receiving such
    responses keeps iterating without ever leaving the loop. *)
Theorem unterminated_chunk_ignored (response : string) (n : nat) (w : World) :
  no_newline response -> defined (_socket w) = true ->
  _read_data (Received response) w = (Ok (Some ([], [], [])), w)
  /\ iteration (Received response) w = (Ok tt, w)
  /\ (_running w = true ->
      while_running (replicate n (Recv (Received response))) w
      = (Ok Blocked, w)).
Proof.
  intros Hn Hs.
  assert (Hr : _read_data (Received response) w = (Ok (Some ([], [], [])), w)).
  { rewrite (read_data_unfold _ _ Hs), (batch_lines_unterminated _ Hn).
    reflexivity. }
  assert (Hi : iteration (Received response) w = (Ok tt, w)).
  { unfold iteration. now rewrite bind_run, Hr. }
  split; [exact Hr|]. split; [exact Hi|].
  intros Hrun. induction n as [|n IH]; simpl; rewrite Hrun; simpl.
  - reflexivity.
  - rewrite bind_run, Hi. exact IH.
Qed.

(** X7. The run loop composes over its events: when the loop is still
    running after the events [pre], the events [pre ++ post] do what [post]
    does from the world [pre] leaves; when the loop has been left after
    [pre] (flag cleared or exception), the events that follow are never
    looked at, and [_run] with them is [_run] without them. *)
Theorem while_running_app (pre post : list event) (w : World) :
  while_running (pre ++ post) w
  = match while_running pre w with
    | (Ok Blocked, w') => while_running post w'
    | other => other
    end
  /\ ((_run pre w).1 <> Ok Blocked -> _run (pre ++ post) w = _run pre w).
Proof.
  assert (H : forall pre w,
             while_running (pre ++ post) w
             = match while_running pre w with
               | (Ok Blocked, w') => while_running post w'
               | other => other
               end).
  { clear. induction pre as [|ev pre IH]; intros w.
    - simpl. destruct (negb (_running w)) eqn:E; [|reflexivity].
      apply while_running_stopped. now destruct (_running w).
    - simpl. destruct (negb (_running w)); [reflexivity|].
      destruct ev as [net| |].
      + rewrite !bind_run.
        destruct (iteration net w) as [[[]|e] w']; [apply IH|reflexivity].
      + reflexivity.
      + rewrite !bind_run. simpl. apply IH. }
  split; [apply H|].
  unfold _run. rewrite H.
  destruct (while_running pre w) as [[[]|e] w']; simpl; try reflexivity.
  intros Hn. now contradiction Hn.
Qed.

(** X8. Run before connect. With [self._socket] still [None] every
    iteration of the loop fails inside [_read_data] with [AttributeError],
    logged and followed by the one-second sleep, whatever the network
    would have delivered; and when the loop is left the cleanup itself
    raises [AttributeError] out of [_run]. *)
Theorem run_without_socket (net : recv_result) (events : list event)
    (w : World) :
  _socket w = None ->
  iteration net w = (Ok tt, faulted AttributeError w)
  /\ ((_run events w).1 = Ok Blocked
      \/ (_run events w).1 = Raise AttributeError).
Proof.
  intros Hs. split.
  - unfold iteration. now rewrite bind_run, (read_data_no_socket _ _ Hs).
  - unfold _run.
    pose proof (while_running_socket events w) as Hk. rewrite Hs in Hk.
    destruct (while_running events w) as [[[]|e] w']; simpl in Hk.
    + right. unfold try_finally, try_except, lift, close, on_socket.
      rewrite Hk. reflexivity.
    + left. reflexivity.
    + right. unfold try_finally, try_except, lift, close, on_socket.
      destruct (exn_eqb e KeyboardInterrupt); simpl; rewrite Hk; reflexivity.
Qed.

(** X9. Quitting after the run loop has been left is safe: [quit] returns
    normally and closes the already closed socket a second time. *)
Theorem quit_after_run (events : list event) (w : World) (s : Socket) :
  _socket w = Some s ->
  (_run events w).1 = Ok Finished ->
  (quit (_run events w).2).1 = Ok tt
  /\ _socket (quit (_run events w).2).2 = Some (closed_once (closed_once s)).
Proof.
  intros Hs Hf.
  destruct (run_outcome events w s Hs) as [[Hb _]|[_ Hc]].
  - rewrite Hb in Hf. discriminate.
  - destruct ((_run events w).2) as [sock run oa ob og ot d lg sl].
    simpl in Hc. subst sock. split; reflexivity.
Qed.

(** ** Batches in sequence *)

Lemma delivered_data (ss : list Sample) :
  forall w, delivered ss w = set_data (_data (delivered ss w)) w.
Proof.
  induction ss as [|s ss IH]; intros w.
  - destruct w. reflexivity.
  - unfold delivered in *. simpl foldl. rewrite IH at 1.
    unfold deliver. destruct (existsb (String.eqb s.1.1) vocabulary);
      destruct w; reflexivity.
Qed.

Lemma acc_pushes_app (a b : list Sample) :
  acc_pushes (a ++ b) = acc_pushes a ++ acc_pushes b.
Proof. apply omap_app. Qed.

Lemma scalar_pushes_app (name : string) (a b : list Sample) :
  scalar_pushes name (a ++ b) = scalar_pushes name a ++ scalar_pushes name b.
Proof. apply omap_app. Qed.

(** X10. Responses received one after the other by a running, connected
    loop are handled in arrival order, each on its own. The loop stays in
    the loop; the sink of each tag gains, in order, the samples of that tag
    of every response without fault and nothing of the responses holding a
    fault; each outlet gains the pushes of the samples recognised before
    the first fault of every response; and each response holding a fault
    costs one logged error and one second of sleep. *)
Theorem batches_in_order (responses : list string) (w : World) :
  ready w = true -> _running w = true ->
  let out := while_running (map (fun r => Recv (Received r)) responses) w in
  out.1 = Ok Blocked
  /\ (forall name, In name vocabulary ->
                   channel name out.2 = channel name w ++ stored name responses)
  /\ outletACC out.2
     = extend (outletACC w) (acc_pushes (concat (map batch_samples responses)))
  /\ outletBVP out.2
     = extend (outletBVP w)
         (scalar_pushes "E4_Bvp" (concat (map batch_samples responses)))
  /\ outletGSR out.2
     = extend (outletGSR w)
         (scalar_pushes "E4_Gsr" (concat (map batch_samples responses)))
  /\ outletTmp out.2
     = extend (outletTmp w)
         (scalar_pushes "E4_Temperature" (concat (map batch_samples responses)))
  /\ slept out.2 = (slept w + faults responses)%nat
  /\ length (_log out.2) = (length (_log w) + faults responses)%nat.
Proof.
  cbv zeta. revert w.
  induction responses as [|r responses IH]; intros w Hw Hr.
  - simpl. rewrite Hr. simpl. unfold stored, faults, extend. simpl.
    split; [reflexivity|].
    split; [intros; now rewrite app_nil_r|].
    destruct w as [sock run oa ob og ot d lg sl]. simpl.
    destruct oa, ob, og, ot; simpl; rewrite ?app_nil_r, ?Nat.add_0_r;
      repeat split.
  - change (map (fun r => Recv (Received r)) (r :: responses))
      with (Recv (Received r) :: map (fun r => Recv (Received r)) responses).
    rewrite (while_running_received _ _ _ Hw Hr), (iteration_received _ _ Hw).
    unfold stored, faults, batch_ok, batch_samples in *. simpl map. simpl concat.
    rewrite filter_cons.
    set (ss := (parse_lines (batch_lines r)).1).
    simpl snd.
    destruct (parse_lines (batch_lines r)).2 as [e|] eqn:E.
    + (* the response holds a fault *)
      destruct (IH (faulted e (pushed ss w))) as (H1 & H2 & H3 & H4 & H5 & H6 & H7 & H8).
      { unfold faulted. now rewrite <- (ready_pushed ss w) in Hw. }
      { exact Hr. }
      rewrite decide_True by reflexivity.
      split; [exact H1|].
      split; [intros name Hn; rewrite (H2 name Hn); reflexivity|].
      rewrite H3, H4, H5, H6, H7, H8.
      rewrite acc_pushes_app, !scalar_pushes_app.
      unfold faulted, pushed. simpl. rewrite !extend_extend, length_app. simpl.
      repeat split; lia.
    + (* no fault *)
      destruct (IH (delivered ss (pushed ss w)))
        as (H1 & H2 & H3 & H4 & H5 & H6 & H7 & H8).
      { rewrite delivered_data. now rewrite <- (ready_pushed ss w) in Hw. }
      { now rewrite delivered_data. }
      rewrite decide_False by discriminate.
      split; [exact H1|].
      split.
      { intros name Hn. rewrite (H2 name Hn), (channel_delivered _ _ Hn).
        now rewrite app_assoc. }
      rewrite H3, H4, H5, H6, H7, H8.
      rewrite acc_pushes_app, !scalar_pushes_app.
      rewrite (delivered_data ss (pushed ss w)).
      unfold pushed. simpl. rewrite !extend_extend.
      repeat split.
Qed.

(** ** The streams of the store *)

Lemma deliver_dom (w : World) (s : Sample) :
  registered w ->
  dom (_data (deliver w s)) = dom (_data w) /\ registered (deliver w s).
Proof.
  intros Hreg. unfold deliver.
  destruct (existsb (String.eqb s.1.1) vocabulary) eqn:Hv;
    [|split; [reflexivity|exact Hreg]].
  change (_data (set_data ?d w)) with d.
  assert (Hin : In s.1.1 vocabulary).
  { apply vocabulary_cases in Hv. simpl.
    destruct Hv as [E | [E | [E | E]]]; rewrite E; tauto. }
  split.
  - apply dom_insert_lookup_L, Hreg, Hin.
  - intros name Hn. unfold registered in Hreg.
    change (_data (set_data ?d w)) with d.
    destruct (decide (sink s.1.1 = sink name)) as [E|E].
    + rewrite E, lookup_insert_eq. eauto.
    + rewrite lookup_insert_ne by exact E. now apply Hreg.
Qed.

Lemma delivered_dom (ss : list Sample) :
  forall w, registered w ->
            dom (_data (delivered ss w)) = dom (_data w)
            /\ registered (delivered ss w).
Proof.
  induction ss as [|s ss IH]; intros w Hreg; [split; [reflexivity|exact Hreg]|].
  unfold delivered in *. simpl foldl.
  destruct (deliver_dom w s Hreg) as [Hd Hr].
  destruct (IH _ Hr) as [Hd' Hr']. split; [congruence|exact Hr'].
Qed.

Global Instance same_store_preorder : PreOrder same_store.
Proof.
  split.
  - intros w. repeat split; reflexivity.
  - intros a b c (H1 & H2 & H3) (H4 & H5 & H6). repeat split; congruence.
Qed.

Lemma store_on_socket (f : Socket -> Socket) : keeps same_store (on_socket f).
Proof. unfold on_socket. primitive. Qed.

Lemma store_log_status (msg : string) : keeps same_store (_log_status msg).
Proof. unfold _log_status, modify. primitive. Qed.

Lemma store_command (msg : string) (replies : list recv_result) :
  keeps same_store (command msg replies).
Proof.
  unfold command, send, recv.
  destruct replies as [|[response|e] rest];
    repeat first
      [ apply store_on_socket
      | apply keeps_ret; typeclasses eauto
      | apply keeps_raise; typeclasses eauto
      | apply keeps_bind; [typeclasses eauto| |intros ?] ].
Qed.

Lemma connect_keeps_store (connect_outcome : option exn)
    (replies : list recv_result) :
  keeps same_store (_connect connect_outcome replies).
Proof.
  unfold _connect, subscribe, settimeout, connect. simpl.
  repeat first
    [ apply store_on_socket
    | apply store_log_status
    | apply store_command
    | apply keeps_ret; typeclasses eauto
    | apply keeps_raise; typeclasses eauto
    | match goal with
      | |- keeps _ (modify _) =>
          apply keeps_modify; intros w; destruct w; repeat split
      | |- keeps _ (bind _ _) =>
          apply keeps_bind; [typeclasses eauto| |intros ?]
      | |- keeps _ (match ?x with _ => _ end) => destruct x
      end ].
Qed.

(** X11. The run loop delivers only to streams that [__init__] registered.
    [__init__] registers the stream of each of the four tags, empty, and no
    other; and from any world in which those four streams exist, an
    iteration of the loop (whatever the receive yields) and a successful or
    failed [_connect] leave the set of streams of the store as it is
    ([_connect] leaves the whole store, the running flag and the time slept
    as they are): no stream is ever created or removed by the streaming
    core. *)
Theorem streams_registered (net : recv_result)
    (connect_outcome : option exn) (replies : list recv_result) (w : World) :
  (forall name, In name vocabulary -> _data __init__ !! sink name = Some [])
  /\ dom (_data __init__) = list_to_set (map sink vocabulary)
  /\ (registered w ->
      dom (_data (iteration net w).2) = dom (_data w)
      /\ registered (iteration net w).2)
  /\ same_store w (_connect connect_outcome replies w).2.
Proof.
  split; [|split; [|split]].
  - intros name Hn. simpl in Hn.
    destruct Hn as [<- | [<- | [<- | [<- | []]]]]; reflexivity.
  - unfold __init__, add_stream. simpl.
    rewrite !dom_insert_L, dom_empty_L. set_solver.
  - intros Hreg. unfold iteration. rewrite bind_run.
    destruct (read_data_never_raises net w) as (r & Hr & _ & (_ & Hd)).
    pose proof (read_data_sound net w) as Hs.
    destruct (_read_data net w) as [[[[[st ts] ds]|]|e] w'];
      simpl in Hr, Hd; [| |discriminate].
    + destruct (Hs st ts ds eq_refl) as (response & _ & _ & Hl & _).
      change (for_range (length st) (dispatch st ts ds) tt w')
        with (for_range (length (st, ts, ds).1.1)
                (dispatch (st, ts, ds).1.1 (st, ts, ds).1.2 (st, ts, ds).2)
                tt w').
      rewrite Hl, dispatch_loop. simpl.
      assert (Hreg' : registered w').
      { intros name Hn. rewrite Hd. now apply Hreg. }
      destruct (delivered_dom (parse_lines (batch_lines response)).1 w' Hreg')
        as [H1 H2].
      split; [now rewrite H1, Hd|exact H2].
    + simpl. split; [now rewrite Hd|].
      intros name Hn. rewrite Hd. now apply Hreg.
  - apply (connect_keeps_store connect_outcome replies w).
Qed.

(** ** Tokens *)

Lemma field_app {A : Type} (conv : string -> option A)
    (tokens extra : list string) (k : nat) :
  (k < length tokens)%nat ->
  field conv (tokens ++ extra) k = field conv tokens k.
Proof.
  intros H. unfold field, index. now rewrite lookup_app_l.
Qed.

(** X12. Tokens beyond the required ones are never looked at: a line that
    carries, after its tag, at least the timestamp and the payload values of
    that tag is handled exactly like the same line with any further tokens
    appended, so a line with too many values is accepted, not dropped. *)
Theorem extra_tokens_ignored (line line' tag : string)
    (rest extra : list string) (acc : Lists) (w : World) :
  split line = tag :: rest ->
  (1 + arity tag <= length rest)%nat ->
  split line' = tag :: rest ++ extra ->
  process line' acc w = process line acc w
  /\ parse line' = parse line.
Proof.
  intros Hs Hlen Hs'. unfold arity in Hlen. split.
  - unfold process, scalar_branch. rewrite Hs, Hs'.
    change (tag :: rest ++ extra) with ((tag :: rest) ++ extra).
    rewrite !bind_run.
    change (index ((tag :: rest) ++ extra) 0) with (Ok (A := string) tag).
    change (index (tag :: rest) 0) with (Ok (A := string) tag).
    change (lift (Ok tag) w) with (Ok tag, w). cbv iota beta.
    destruct (String.eqb_spec tag "E4_Acc") as [->|Hacc].
    + now rewrite !field_app by (simpl; lia).
    + now rewrite !(field_app float _ _ 1), !(field_app float _ _ 2)
        by (simpl; lia).
  - unfold parse. rewrite Hs, Hs'.
    change (tag :: rest ++ extra) with ((tag :: rest) ++ extra).
    change (index ((tag :: rest) ++ extra) 0) with (Ok (A := string) tag).
    change (index (tag :: rest) 0) with (Ok (A := string) tag).
    cbn [rbind].
    destruct (String.eqb_spec tag "E4_Acc") as [->|Hacc].
    + now rewrite !field_app by (simpl; lia).
    + now rewrite !(field_app float _ _ 1), !(field_app float _ _ 2)
        by (simpl; lia).
Qed.

Lemma split_trailing_space (line : string) (c : ascii) :
  isspace c = true -> split (line +:+ String c EmptyString) = split line.
Proof.
  intros Hc. induction line as [|a line IH].
  - rewrite append_empty. simpl. now rewrite Hc.
  - rewrite append_cons.
    change (split (String a (line +:+ String c EmptyString)))
      with (if isspace a then split (line +:+ String c EmptyString)
            else match line +:+ String c EmptyString with
                 | EmptyString => [String a EmptyString]
                 | String c' _ =>
                     if isspace c'
                     then String a EmptyString
                          :: split (line +:+ String c EmptyString)
                     else match split (line +:+ String c EmptyString) with
                          | x :: xs => String a x :: xs
                          | [] => [String a EmptyString]
                          end
                 end).
    rewrite IH.
    destruct line as [|b line].
    + rewrite append_empty. simpl. rewrite Hc. now destruct (isspace a).
    + rewrite append_cons. reflexivity.
Qed.

Lemma append_nil_r (s : string) : s +:+ EmptyString = s.
Proof.
  induction s as [|c s IH]; [reflexivity|]. now rewrite append_cons, IH.
Qed.

Lemma no_newline_append (a b : string) :
  no_newline a -> no_newline b -> no_newline (a +:+ b).
Proof.
  unfold no_newline. intros Ha Hb. induction a as [|c a IH].
  - exact Hb.
  - rewrite append_cons. simpl in *.
    apply orb_false_iff in Ha as [Hc Ha]. now rewrite Hc, IH.
Qed.

Lemma for_each_same_tokens (g g' : list string) :
  Forall2 (fun l l' => split l' = split l) g g' ->
  forall acc w, for_each g' process acc w = for_each g process acc w.
Proof.
  induction 1 as [|l l' g g' Hl _ IH]; intros acc w; [reflexivity|].
  simpl. rewrite !bind_run.
  assert (Hp : process l' acc w = process l acc w).
  { unfold process. now rewrite Hl. }
  rewrite Hp.
  destruct (process l acc w) as [[acc'|e] w']; [apply IH|reflexivity].
Qed.

(** X13. Whitespace at the end of a line is immaterial, so lines ended by
    CR LF are handled like lines ended by LF: a line followed by a
    whitespace character has the same tokens as the line, and a response
    whose lines each carry a trailing CR is read by [_read_data] exactly as
    the response without the CRs. *)
Theorem carriage_return_ignored (g : list string) (line : string) (c : ascii)
    (w : World) :
  Forall no_newline g ->
  (isspace c = true -> split (line +:+ String c EmptyString) = split line)
  /\ _read_data
       (Received (unlines (map (fun l => l +:+ String "013" EmptyString) g))) w
     = _read_data (Received (unlines g)) w.
Proof.
  intros Hg. split; [apply split_trailing_space|].
  assert (Hg' : Forall no_newline
                  (map (fun l => l +:+ String "013" EmptyString) g)).
  { apply Forall_fmap. eapply Forall_impl; [exact Hg|].
    intros l Hl. now apply no_newline_append. }
  apply read_data_for_each. intros acc v.
  pose proof (batch_lines_unlines g EmptyString Hg eq_refl) as H1.
  pose proof (batch_lines_unlines _ EmptyString Hg' eq_refl) as H2.
  rewrite append_nil_r in H1, H2. rewrite H1, H2.
  apply for_each_same_tokens.
  clear. induction g as [|l g IH]; constructor; [|exact IH].
  now apply split_trailing_space.
Qed.

(** ** The lines of a response *)

Lemma split_on_snoc (response : string) :
  exists g t,
    split_on LF response = g ++ [t]
    /\ Forall no_newline g /\ no_newline t
    /\ response = unlines g +:+ t.
Proof.
  induction response as [|c s (g & t & Hs & Hg & Ht & Hr)].
  - exists [], EmptyString. repeat split. constructor.
  - simpl. destruct (Ascii.eqb c LF) eqn:Hc.
    + apply Ascii.eqb_eq in Hc. subst c.
      exists (EmptyString :: g), t. rewrite Hs.
      split; [reflexivity|]. split; [now constructor|]. split; [exact Ht|].
      change (unlines (EmptyString :: g))
        with (terminated EmptyString +:+ unlines g).
      unfold terminated.
      rewrite append_empty, !append_cons, !append_empty.
      now rewrite <- Hr.
    + rewrite Hs. destruct g as [|x g].
      * exists [], (String c t). split; [reflexivity|].
        split; [constructor|]. split.
        { unfold no_newline in *. simpl. now rewrite Hc, Ht. }
        change (unlines []) with EmptyString in *.
        rewrite append_empty in *. now rewrite Hr.
      * exists (String c x :: g), t. split; [reflexivity|].
        apply Forall_cons_1 in Hg as [Hx Hg].
        split; [constructor; [|exact Hg]|].
        { unfold no_newline in *. simpl. now rewrite Hc, Hx. }
        split; [exact Ht|].
        change (unlines (String c x :: g))
          with (terminated (String c x) +:+ unlines g).
        change (unlines (x :: g)) with (terminated x +:+ unlines g) in Hr.
        unfold terminated in *. rewrite !append_cons. now rewrite Hr.
Qed.

(** X14. Every response is, in exactly one way, lines each followed by the
    terminator and then a text without terminator: the lines are the ones
    [_read_data] iterates over, none of them contains a terminator, and the
    text is the segment it leaves out. Nothing else of the response is
    lost or invented by the splitting. *)
Theorem response_decomposition (response : string) :
  unlines (batch_lines response) +:+ tail_of response = response
  /\ Forall no_newline (batch_lines response)
  /\ no_newline (tail_of response)
  /\ forall g t, Forall no_newline g -> no_newline t ->
                 response = unlines g +:+ t ->
                 g = batch_lines response /\ t = tail_of response.
Proof.
  destruct (split_on_snoc response) as (g & t & Hs & Hg & Ht & Hr).
  assert (Hb : batch_lines response = g).
  { unfold batch_lines. rewrite Hs. apply take_all_but_last. }
  assert (Hl : tail_of response = t).
  { unfold tail_of. now rewrite Hs, last_snoc. }
  rewrite Hb, Hl.
  split; [now symmetry|]. split; [exact Hg|]. split; [exact Ht|].
  intros g' t' Hg' Ht' Hr'.
  pose proof (split_on_unlines g' t' Hg') as H.
  rewrite <- Hr', (split_on_no_sep _ _ Ht'), Hs in H.
  apply app_inj_tail in H as [-> ->]. split; reflexivity.
Qed.

(** ** What the converters are applied to *)

Lemma split_token_like (s : string) :
  Forall (fun t => token_like t = true) (split s).
Proof.
  induction s as [|c s IH]; [constructor|].
  change (split (String c s))
    with (if isspace c then split s
          else match s with
               | EmptyString => [String c EmptyString]
               | String c' _ =>
                   if isspace c' then String c EmptyString :: split s
                   else match split s with
                        | x :: xs => String c x :: xs
                        | [] => [String c EmptyString]
                        end
               end).
  destruct (isspace c) eqn:Hc; [exact IH|].
  assert (Hone : token_like (String c EmptyString) = true).
  { unfold token_like. simpl. now rewrite Hc. }
  destruct s as [|c' s']; [now repeat constructor|].
  destruct (isspace c'); [now constructor|].
  destruct (split (String c' s')) as [|x xs]; [now repeat constructor|].
  apply Forall_cons_1 in IH as [Hx Hxs]. constructor; [|exact Hxs].
  unfold token_like in *. simpl. rewrite Hc. simpl.
  now apply andb_true_iff in Hx as [_ ->].
Qed.

Lemma replace_char_not_comma (c : ascii) :
  Ascii.eqb (replace_char c) comma = false.
Proof. destruct c as [[] [] [] [] [] [] [] []]; reflexivity. Qed.

Lemma clean_replace (t : string) : token_like t = true -> clean (replace t) = true.
Proof.
  unfold clean, token_like. intros H.
  apply andb_true_iff in H as [Hne Hsp].
  assert (H1 : all_chars (fun c => negb (isspace c)) (replace t) = true).
  { clear Hne. induction t as [|c t IH]; [reflexivity|]. simpl in *.
    apply andb_true_iff in Hsp as [Hc Ht].
    now rewrite isspace_replace_char, Hc, IH. }
  assert (H2 : has_char comma (replace t) = false).
  { clear. induction t as [|c t IH]; [reflexivity|]. simpl.
    now rewrite replace_char_not_comma, IH. }
  rewrite H1, H2. destruct t; [discriminate|reflexivity].
Qed.

Lemma field_ext {A : Type} (conv conv' : string -> option A) (line : string)
    (k : nat) :
  (forall t, clean t = true -> conv t = conv' t) ->
  field conv (split line) k = field conv' (split line) k.
Proof.
  intros H. unfold field, index.
  destruct (split line !! k) as [t|] eqn:E; [|reflexivity].
  rewrite H; [reflexivity|].
  apply clean_replace.
  pose proof (split_token_like line) as Hf. rewrite Forall_forall in Hf.
  apply Hf. now apply list_elem_of_lookup_2 in E.
Qed.

Lemma for_range_from_ext {A : Type} (body body' : nat -> A -> M A) (n : nat) :
  (forall i a w, body i a w = body' i a w) ->
  forall start acc w,
    for_range_from start n body acc w = for_range_from start n body' acc w.
Proof.
  intros H. induction n as [|n IH]; intros start acc w; [reflexivity|].
  simpl. rewrite !bind_run, H.
  destruct (body' start acc w) as [[a|e] w']; [apply IH|reflexivity].
Qed.

Lemma has_dot_replace (v : string) :
  has_char comma v || has_char dot v = true -> has_char dot (replace v) = true.
Proof.
  induction v as [|c v IH]; simpl; [discriminate|].
  intros H. unfold replace_char.
  destruct (Ascii.eqb_spec c comma) as [->|Hc]; [reflexivity|].
  simpl in H. destruct (Ascii.eqb c dot); [reflexivity|]. simpl in *.
  apply IH. exact H.
Qed.

(** X16. Accelerometer values must be whole numbers. With a converter [int]
    that, like the builtin, rejects every text containing a point, an
    [E4_Acc] line one of whose three payload values is written with a
    decimal separator (comma or point) is a faulty line: the loop body
    raises on it. *)
Theorem fractional_acc_faults (line : string) (rest : list string) (k : nat)
    (v : string) :
  (forall t, has_char dot t = true -> int t = None) ->
  split line = "E4_Acc" :: rest ->
  (1 <= k <= 3)%nat -> rest !! k = Some v ->
  has_char comma v || has_char dot v = true ->
  faulty line = true /\ exists e, parse line = Raise e.
Proof.
  intros Hint Hs Hk Hv Hd.
  assert (Hn : defined (int (replace v)) = false).
  { now rewrite (Hint _ (has_dot_replace _ Hd)). }
  assert (Hf : faulty line = true).
  { unfold faulty. rewrite Hs.
    destruct rest as [|t0 [|t1 [|t2 [|t3 rest]]]]; try reflexivity.
    unfold arity, numeric. simpl.
    destruct k as [|[|[|[|k]]]]; try lia; simpl in Hv;
      injection Hv as <-; rewrite Hn;
      repeat match goal with
             | |- context [defined ?x] => destruct (defined x)
             end; reflexivity. }
  split; [exact Hf|]. now apply faulty_parse.
Qed.

(** ** [get_default_visualization_options] *)

Lemma blank_streams_empty {I : Type} :
  blank_streams (∅ : gmap string I) = ∅.
Proof. unfold blank_streams. apply fmap_empty. Qed.

Lemma blank_streams_insert {I : Type} (s : string) (y : I)
    (m : gmap string I) :
  blank_streams (<[s := y]> m) = <[s := no_visualizer]> (blank_streams m).
Proof. unfold blank_streams. apply fmap_insert. Qed.

Lemma blank_streams_lookup {I : Type} (s : string) (m : gmap string I) :
  blank_streams m !! s = (fun _ => no_visualizer) <$> m !! s.
Proof. unfold blank_streams. apply lookup_fmap. Qed.

Lemma start_without_visualizer_eq {I : Type} (si : gmap string (gmap string I)) :
  start_without_visualizer si = Some (blank_streams <$> si).
Proof.
  unfold start_without_visualizer, for_items.
  apply (map_fold_weak_ind
           (fun r (m : gmap string (gmap string I)) =>
              r = Some (blank_streams <$> m))).
  - now rewrite fmap_empty.
  - intros dev info m r Hm ->. simpl.
    unfold setdefault at 1. rewrite lookup_fmap, Hm. simpl.
    rewrite fmap_insert.
    apply (map_fold_weak_ind
             (fun r' (m' : gmap string I) =>
                r' = Some (<[dev := blank_streams m']> (blank_streams <$> m)))).
    + reflexivity.
    + intros s y m' r' Hm' ->. simpl.
      unfold setdefault_stream. rewrite lookup_insert_eq.
      unfold setdefault. rewrite blank_streams_lookup, Hm'. simpl.
      now rewrite insert_insert_eq, blank_streams_insert.
Qed.

Lemma lookup2_insert (p : gmap string (gmap string (gmap string Value)))
    (d dev st : string) (streams : gmap string (gmap string Value)) :
  lookup2 (<[d := streams]> p) dev st
  = if decide (dev = d) then streams !! st else lookup2 p dev st.
Proof.
  unfold lookup2. destruct (decide (dev = d)) as [->|Hne].
  - now rewrite lookup_insert_eq.
  - now rewrite lookup_insert_ne by congruence.
Qed.

Lemma assign_stream_step (d s : string) (o : gmap string Value)
    (p : gmap string (gmap string (gmap string Value))) :
  match assign_stream d s o p with
  | Some p' =>
      is_Some (p !! d) /\ dom p' = dom p
      /\ forall dev st,
           lookup2 p' dev st
           = if decide ((dev, st) = (d, s)) then Some o else lookup2 p dev st
  | None => p !! d = None
  end.
Proof.
  unfold assign_stream. destruct (p !! d) as [streams|] eqn:E; [|reflexivity].
  split; [eauto|]. split.
  - apply dom_insert_lookup_L. eauto.
  - intros dev st. rewrite lookup2_insert.
    destruct (decide (dev = d)) as [->|Hne].
    + destruct (decide (st = s)) as [->|Hs].
      * rewrite decide_True by reflexivity. apply lookup_insert_eq.
      * rewrite decide_False by congruence.
        rewrite lookup_insert_ne by congruence.
        unfold lookup2. now rewrite E.
    + now rewrite decide_False by congruence.
Qed.

Lemma plot_four_streams_spec
    (p : gmap string (gmap string (gmap string Value))) :
  match plot_four_streams p with
  | Some p' =>
      (forall d, d ∈ plotted.*1 -> is_Some (p !! d)) /\ dom p' = dom p
      /\ forall dev st,
           lookup2 p' dev st
           = if bool_decide ((dev, st) ∈ plotted) then Some line_plot
             else lookup2 p dev st
  | None => exists d, d ∈ plotted.*1 /\ p !! d = None
  end.
Proof.
  unfold plot_four_streams.
  pose proof (assign_stream_step "ACC-empatica_e4" "acc-values" line_plot p) as H1.
  destruct (assign_stream "ACC-empatica_e4" "acc-values" line_plot p) as [p1|];
    simpl; [|exists "ACC-empatica_e4"; split; [repeat constructor|exact H1]].
  destruct H1 as (S1 & D1 & L1).
  pose proof (assign_stream_step "BVP-empatica_e4" "bvp-values" line_plot p1) as H2.
  destruct (assign_stream "BVP-empatica_e4" "bvp-values" line_plot p1) as [p2|];
    simpl.
  2:{ exists "BVP-empatica_e4". split; [repeat constructor|].
      apply not_elem_of_dom. rewrite <- D1. now apply not_elem_of_dom. }
  destruct H2 as (S2 & D2 & L2).
  pose proof (assign_stream_step "GSR-empatica_e4" "gsr-values" line_plot p2) as H3.
  destruct (assign_stream "GSR-empatica_e4" "gsr-values" line_plot p2) as [p3|];
    simpl.
  2:{ exists "GSR-empatica_e4". split; [repeat constructor|].
      apply not_elem_of_dom. rewrite <- D1, <- D2. now apply not_elem_of_dom. }
  destruct H3 as (S3 & D3 & L3).
  pose proof (assign_stream_step "Tmp-empatica_e4" "tmp-values" line_plot p3) as H4.
  destruct (assign_stream "Tmp-empatica_e4" "tmp-values" line_plot p3) as [p4|];
    simpl.
  2:{ exists "Tmp-empatica_e4". split; [repeat constructor|].
      apply not_elem_of_dom. rewrite <- D1, <- D2, <- D3.
      now apply not_elem_of_dom. }
  destruct H4 as (S4 & D4 & L4).
  split; [|split].
  - intros d Hd. apply elem_of_dom.
    apply elem_of_dom in S1, S2, S3, S4.
    rewrite D1 in S2. rewrite D2, D1 in S3. rewrite D3, D2, D1 in S4.
    simpl in Hd. rewrite !elem_of_cons, elem_of_nil in Hd.
    destruct Hd as [->|[->|[->|[->|[]]]]]; assumption.
  - congruence.
  - intros dev st. rewrite L4, L3, L2, L1. unfold plotted.
    repeat case_decide; case_bool_decide as Hin; simplify_eq; try reflexivity;
      try (exfalso; apply Hin; repeat constructor).
    rewrite !elem_of_cons, elem_of_nil in Hin.
    destruct Hin as [|[|[|[|[]]]]]; contradiction.
Qed.

Lemma assign_option_some (dev s k : string) (v : Value)
    (p : gmap string (gmap string (gmap string Value)))
    (opts : gmap string Value) :
  lookup2 p dev s = Some opts ->
  exists p',
    assign_option dev s k v p = Some p' /\ dom p' = dom p
    /\ forall d' s',
         lookup2 p' d' s'
         = if decide ((d', s') = (dev, s)) then Some (<[k := v]> opts)
           else lookup2 p d' s'.
Proof.
  unfold lookup2 at 1, assign_option.
  destruct (p !! dev) as [streams|] eqn:E; [|discriminate]. simpl.
  intros Hs. rewrite Hs. eexists. split; [reflexivity|]. split.
  - apply dom_insert_lookup_L. eauto.
  - intros d' s'. rewrite lookup2_insert.
    destruct (decide (d' = dev)) as [->|Hne].
    + destruct (decide (s' = s)) as [->|Hs'].
      * rewrite decide_True by reflexivity. apply lookup_insert_eq.
      * rewrite decide_False by congruence.
        rewrite lookup_insert_ne by congruence.
        unfold lookup2. now rewrite E.
    + now rewrite decide_False by congruence.
Qed.

Lemma override_stream (dev s : string) (o opts : gmap string Value)
    (p : gmap string (gmap string (gmap string Value))) :
  lookup2 p dev s = Some opts ->
  exists q,
    for_items o (fun k v processed => assign_option dev s k v processed)
      (Some p) = Some q
    /\ dom q = dom p
    /\ forall d' s',
         lookup2 q d' s'
         = if decide ((d', s') = (dev, s)) then Some (o ∪ opts)
           else lookup2 p d' s'.
Proof.
  intros Hp. unfold for_items.
  apply (map_fold_weak_ind
           (fun r (m : gmap string Value) =>
              exists q,
                r = Some q /\ dom q = dom p
                /\ forall d' s',
                     lookup2 q d' s'
                     = if decide ((d', s') = (dev, s)) then Some (m ∪ opts)
                       else lookup2 p d' s')).
  - exists p. split; [reflexivity|]. split; [reflexivity|].
    intros d' s'. case_decide as E; [|reflexivity].
    injection E as -> ->. now rewrite (left_id_L ∅ (∪)).
  - intros k v m r Hm (q & -> & Hd & Hl). simpl.
    assert (Hq : lookup2 q dev s = Some (m ∪ opts)).
    { rewrite Hl. now rewrite decide_True. }
    destruct (assign_option_some dev s k v q _ Hq) as (q' & Hq' & Hd' & Hl').
    exists q'. split; [exact Hq'|]. split; [congruence|].
    intros d' s'. rewrite Hl'. case_decide.
    + now rewrite insert_union_l.
    + rewrite Hl. now rewrite decide_False.
Qed.

Lemma override_device {I : Type} (dev : string) (o : gmap string Value)
    (info : gmap string I)
    (p : gmap string (gmap string (gmap string Value))) :
  (forall s, is_Some (info !! s) -> is_Some (lookup2 p dev s)) ->
  exists q,
    for_items info
      (fun stream_name (_ : I) processed =>
         for_items o
           (fun k v processed => assign_option dev stream_name k v processed)
           (Some processed))
      (Some p) = Some q
    /\ dom q = dom p
    /\ forall d' s',
         lookup2 q d' s'
         = if decide (d' = dev)
           then match info !! s' with
                | Some _ => (fun opts => o ∪ opts) <$> lookup2 p d' s'
                | None => lookup2 p d' s'
                end
           else lookup2 p d' s'.
Proof.
  unfold for_items at 1.
  apply (map_fold_weak_ind
           (fun r (m : gmap string I) =>
              (forall s, is_Some (m !! s) -> is_Some (lookup2 p dev s)) ->
              exists q,
                r = Some q /\ dom q = dom p
                /\ forall d' s',
                     lookup2 q d' s'
                     = if decide (d' = dev)
                       then match m !! s' with
                            | Some _ =>
                                (fun opts => o ∪ opts) <$> lookup2 p d' s'
                            | None => lookup2 p d' s'
                            end
                       else lookup2 p d' s')).
  - intros _. exists p. split; [reflexivity|]. split; [reflexivity|].
    intros d' s'. rewrite lookup_empty. now case_decide.
  - intros s y m r Hm IH Hpre.
    destruct IH as (q & -> & Hd & Hl).
    { intros s0 [x Hx]. apply Hpre.
      destruct (decide (s0 = s)) as [->|Hne]; [congruence|].
      rewrite lookup_insert_ne by congruence. eauto. }
    simpl.
    destruct (Hpre s) as [opts Hopts]; [rewrite lookup_insert_eq; eauto|].
    assert (Hq : lookup2 q dev s = Some opts).
    { rewrite Hl, decide_True, Hm by reflexivity. exact Hopts. }
    destruct (override_stream dev s o opts q Hq) as (q' & Hq' & Hd' & Hl').
    exists q'. split; [exact Hq'|]. split; [congruence|].
    intros d' s'. rewrite Hl'.
    destruct (decide ((d', s') = (dev, s))) as [E|E].
    + injection E as -> ->.
      rewrite decide_True, lookup_insert_eq by reflexivity.
      now rewrite Hopts.
    + rewrite Hl.
      destruct (decide (d' = dev)) as [->|Hne]; [|reflexivity].
      assert (s' <> s) by congruence.
      now rewrite lookup_insert_ne by congruence.
Qed.

Lemma override_options_spec {I : Type} (si : gmap string (gmap string I))
    (vo : gmap string (gmap string Value))
    (p : gmap string (gmap string (gmap string Value))) :
  (forall dev info s,
     si !! dev = Some info -> is_Some (info !! s) ->
     is_Some (lookup2 p dev s)) ->
  exists q,
    override_options si vo p = Some q /\ dom q = dom p
    /\ forall d' s',
         lookup2 q d' s'
         = match si !! d', vo !! d' with
           | Some info, Some o =>
               match info !! s' with
               | Some _ => (fun opts => o ∪ opts) <$> lookup2 p d' s'
               | None => lookup2 p d' s'
               end
           | _, _ => lookup2 p d' s'
           end.
Proof.
  unfold override_options, for_items at 1.
  apply (map_fold_weak_ind
           (fun r (m : gmap string (gmap string I)) =>
              (forall dev info s,
                 m !! dev = Some info -> is_Some (info !! s) ->
                 is_Some (lookup2 p dev s)) ->
              exists q,
                r = Some q /\ dom q = dom p
                /\ forall d' s',
                     lookup2 q d' s'
                     = match m !! d', vo !! d' with
                       | Some info, Some o =>
                           match info !! s' with
                           | Some _ =>
                               (fun opts => o ∪ opts) <$> lookup2 p d' s'
                           | None => lookup2 p d' s'
                           end
                       | _, _ => lookup2 p d' s'
                       end)).
  - intros _. exists p. split; [reflexivity|]. split; [reflexivity|].
    intros d' s'. now rewrite lookup_empty.
  - intros dev info m r Hm IH Hpre.
    destruct IH as (q & -> & Hd & Hl).
    { intros dev0 info0 s0 H0 Hs0. apply (Hpre dev0 info0 s0); [|exact Hs0].
      destruct (decide (dev0 = dev)) as [->|Hne]; [congruence|].
      now rewrite lookup_insert_ne by congruence. }
    simpl.
    assert (Hqdev : forall s', lookup2 q dev s' = lookup2 p dev s').
    { intros s'. rewrite Hl, Hm. reflexivity. }
    destruct (vo !! dev) as [o|] eqn:Ho.
    + destruct (override_device dev o info q) as (q' & Hq' & Hd' & Hl').
      { intros s Hs. rewrite Hqdev. apply (Hpre dev info s); [|exact Hs].
        apply lookup_insert_eq. }
      exists q'. split; [exact Hq'|]. split; [congruence|].
      intros d' s'. rewrite Hl'.
      destruct (decide (d' = dev)) as [->|Hne].
      * rewrite lookup_insert_eq, Ho, Hqdev. reflexivity.
      * rewrite lookup_insert_ne by congruence. apply Hl.
    + exists q. split; [reflexivity|]. split; [exact Hd|].
      intros d' s'.
      destruct (decide (d' = dev)) as [->|Hne].
      * rewrite lookup_insert_eq, Ho. apply Hqdev.
      * rewrite lookup_insert_ne by congruence. apply Hl.
Qed.

(** X17. When the four devices given the line plot are registered in
    [_streams_info], [get_default_visualization_options] returns a
    dictionary with exactly the registered devices and, for every device
    and stream: a registered stream has the options given for its device in
    [visualization_options] (none when that is not a dictionary or lacks
    the device) over the line plot options if it is one of the four
    streams and over [{'class': None}] otherwise; one of the four streams
    that is not registered under its device has the plain line plot
    options, untouched by the options given for the device; any other
    stream is absent. *)
Theorem visualization_options_lookup {I : Type}
    (si : gmap string (gmap string I))
    (vo : option (gmap string (gmap string Value))) :
  (forall d, d ∈ plotted.*1 -> is_Some (si !! d)) ->
  exists p,
    get_default_visualization_options si vo = Some p
    /\ dom p = dom si
    /\ forall dev stream,
         lookup2 p dev stream = expected_options si vo dev stream.
Proof.
  intros Hreg. unfold get_default_visualization_options.
  rewrite start_without_visualizer_eq. simpl.
  pose proof (plot_four_streams_spec (blank_streams <$> si)) as H2.
  destruct (plot_four_streams (blank_streams <$> si)) as [p2|].
  2:{ destruct H2 as (d & Hd & Hn). rewrite lookup_fmap in Hn.
      destruct (Hreg d Hd) as [x Hx]. rewrite Hx in Hn. discriminate. }
  destruct H2 as (_ & D2 & L2).
  assert (Hdom : dom p2 = dom si) by (now rewrite D2, dom_fmap_L).
  assert (Hblank : forall dev s,
             lookup2 (blank_streams <$> si) dev s
             = si !! dev ≫= (fun info => (fun _ => no_visualizer) <$> info !! s)).
  { intros dev s. unfold lookup2. rewrite lookup_fmap.
    destruct (si !! dev) as [info|]; simpl; [|reflexivity].
    apply blank_streams_lookup. }
  assert (Hplot : forall dev s,
             (dev, s) ∈ plotted -> is_Some (si !! dev)).
  { intros dev s Hin. apply Hreg.
    apply list_elem_of_fmap. exists (dev, s). split; [reflexivity|exact Hin]. }
  assert (Hbase : forall dev s,
             lookup2 p2 dev s
             = match si !! dev with
               | None => None
               | Some info =>
                   match info !! s with
                   | Some _ =>
                       Some (if bool_decide ((dev, s) ∈ plotted)
                             then line_plot else no_visualizer)
                   | None =>
                       if bool_decide ((dev, s) ∈ plotted)
                       then Some line_plot else None
                   end
               end).
  { intros dev s. rewrite L2, Hblank.
    case_bool_decide as Hin.
    - destruct (Hplot dev s Hin) as [info Hinfo]. rewrite Hinfo.
      now destruct (info !! s).
    - destruct (si !! dev) as [info|]; simpl; [|reflexivity].
      now destruct (info !! s). }
  destruct vo as [vo|].
  - destruct (override_options_spec si vo p2) as (q & Hq & Dq & Lq).
    { intros dev info s Hinfo [x Hx]. rewrite Hbase, Hinfo, Hx. eauto. }
    exists q. split; [exact Hq|]. split; [congruence|].
    intros dev s. rewrite Lq, Hbase. unfold expected_options. simpl.
    destruct (si !! dev) as [info|]; [|reflexivity].
    destruct (vo !! dev) as [o|]; simpl.
    + now destruct (info !! s).
    + destruct (info !! s); [|reflexivity]. now rewrite (left_id_L ∅ (∪)).
  - exists p2. split; [reflexivity|]. split; [exact Hdom|].
    intros dev s. rewrite Hbase. unfold expected_options. simpl.
    destruct (si !! dev) as [info|]; [|reflexivity].
    destruct (info !! s); [|reflexivity]. now rewrite (left_id_L ∅ (∪)).
Qed.

(** X18. When one of the four devices given the line plot is not
    registered in [_streams_info], [get_default_visualization_options]
    raises [KeyError], whatever [visualization_options] is. *)
Theorem visualization_options_key_error {I : Type}
    (si : gmap string (gmap string I))
    (vo : option (gmap string (gmap string Value))) (d : string) :
  d ∈ plotted.*1 -> si !! d = None ->
  get_default_visualization_options si vo = None.
Proof.
  intros Hd Hn. unfold get_default_visualization_options.
  rewrite start_without_visualizer_eq. simpl.
  pose proof (plot_four_streams_spec (blank_streams <$> si)) as H2.
  destruct (plot_four_streams (blank_streams <$> si)) as [p2|]; [|reflexivity].
  destruct H2 as (Hall & _).
  destruct (Hall d Hd) as [x Hx]. rewrite lookup_fmap, Hn in Hx. discriminate.
Qed.

(** ** The shape of the samples *)








(** ** Cutting a response at a line boundary *)

Lemma batch_lines_app (g : list string) (rest : string) :
  Forall no_newline g ->
  batch_lines (unlines g +:+ rest) = g ++ batch_lines rest.
Proof.
  intros Hg. unfold batch_lines. rewrite (split_on_unlines _ _ Hg).
  pose proof (split_on_nonempty LF rest) as Hne.
  destruct (split_on LF rest) as [|x xs] eqn:E; [contradiction|].
  rewrite length_app.
  replace (length g + length (x :: xs) - 1)%nat
    with (length g + (length (x :: xs) - 1))%nat by (simpl; lia).
  now rewrite take_app_add.
Qed.

Lemma parse_lines_app (a b : list string) :
  (parse_lines a).2 = None ->
  parse_lines (a ++ b)
  = ((parse_lines a).1 ++ (parse_lines b).1, (parse_lines b).2).
Proof.
  induction a as [|l a IH]; simpl.
  - intros _. now destruct (parse_lines b).
  - destruct (parse l) as [o|e]; simpl; [|discriminate].
    intros H. rewrite (IH H). simpl. now rewrite app_assoc.
Qed.

Lemma parse_lines_app_ok (a b : list string) :
  (parse_lines (a ++ b)).2 = None -> (parse_lines a).2 = None.
Proof.
  induction a as [|l a IH]; simpl; [reflexivity|].
  destruct (parse l) as [o|e]; simpl; [exact IH|discriminate].
Qed.

Lemma delivered_app (a b : list Sample) (w : World) :
  delivered (a ++ b) w = delivered b (delivered a w).
Proof. unfold delivered. apply foldl_app. Qed.

Lemma deliver_pushed (ss : list Sample) (w : World) (s : Sample) :
  deliver (pushed ss w) s = pushed ss (deliver w s).
Proof.
  unfold deliver.
  destruct (existsb (String.eqb s.1.1) vocabulary); reflexivity.
Qed.

Lemma delivered_pushed (ss' : list Sample) (ss : list Sample) :
  forall w, delivered ss (pushed ss' w) = pushed ss' (delivered ss w).
Proof.
  induction ss as [|s ss IH]; intros w; [reflexivity|].
  unfold delivered in *. simpl foldl. now rewrite deliver_pushed, IH.
Qed.

(** X20. Cutting a response without fault after one of its terminators
    changes nothing: a connected, running loop that receives the two parts
    one after the other ends in exactly the state it reaches when it
    receives the whole response at once. *)
Theorem cut_at_line_boundary (g : list string) (rest : string)
    (events : list event) (w : World) :
  ready w = true -> _running w = true ->
  Forall no_newline g ->
  batch_ok (unlines g +:+ rest) = true ->
  while_running
    (Recv (Received (unlines g)) :: Recv (Received rest) :: events) w
  = while_running (Recv (Received (unlines g +:+ rest)) :: events) w.
Proof.
  intros Hw Hr Hg Hok.
  unfold batch_ok in Hok. rewrite (batch_lines_app _ _ Hg) in Hok.
  destruct (parse_lines (g ++ batch_lines rest)).2 eqn:E; [discriminate|].
  pose proof (parse_lines_app_ok _ _ E) as Eg.
  rewrite (parse_lines_app _ _ Eg) in E. simpl in E.
  pose proof (batch_lines_unlines g EmptyString Hg eq_refl) as Hbl.
  rewrite append_nil_r in Hbl.
  rewrite (while_running_received _ _ _ Hw Hr), (iteration_received _ _ Hw).
  rewrite Hbl, Eg. simpl snd.
  set (ss1 := (parse_lines g).1).
  assert (Hw1 : ready (delivered ss1 (pushed ss1 w)) = true).
  { rewrite delivered_data. now rewrite <- (ready_pushed ss1 w) in Hw. }
  assert (Hr1 : _running (delivered ss1 (pushed ss1 w)) = true).
  { now rewrite delivered_data. }
  rewrite (while_running_received _ _ _ Hw1 Hr1), (iteration_received _ _ Hw1).
  rewrite E. simpl snd.
  rewrite (while_running_received _ _ _ Hw Hr), (iteration_received _ _ Hw).
  rewrite (batch_lines_app _ _ Hg), (parse_lines_app _ _ Eg). simpl.
  rewrite E. fold ss1.
  set (ss2 := (parse_lines (batch_lines rest)).1).
  f_equal.
  rewrite delivered_app, pushed_app.
  now rewrite (delivered_pushed ss2 ss1).
Qed.

End Streamer.

Arguments Ints {F} l.
Arguments Float {F} x.
Arguments _socket {F} w.
Arguments _running {F} w.
Arguments outletACC {F} w.
Arguments outletBVP {F} w.
Arguments outletGSR {F} w.
Arguments outletTmp {F} w.
Arguments _data {F} w.
Arguments _log {F} w.
Arguments slept {F} w.
Arguments channel {F} name w.
Arguments ready {F} w.
Arguments defined {A} o.
Arguments faulted {F} e w.
Arguments pushed {F} ss w.
Arguments parse {F} float int line.
Arguments parse_lines {F} float int lines.
Arguments faulty {F} float int line.
Arguments process {F} float int sample acc w.
Arguments _read_data {F} float int net w.
Arguments iteration {F} float int net w.
Arguments while_running {F} float int events w.
Arguments _run {F} float int events w.
Arguments _connect {F} connect_outcome replies w.
Arguments quit {F} w.

(** ** The model run on concrete inputs

    The statements below instantiate the converters with the reference
    pair of [Builtins], on the world [streaming] in which [_connect] has
    succeeded and the running flag is set. *)

Import Builtins.

(** C1 as stated fails: the line ["E4_Bvp 1.0 2.0"] split across two
    chunks after ["E4_Bvp 1"] is not reassembled. The first chunk yields no
    line and its text is dropped, the second yields the line [".0 2.0"];
    fed to the run loop the two chunks deliver no sample, where the
    unsplit line delivers one. *)
Lemma split_line_is_lost :
  "E4_Bvp 1" +:+ terminated ".0 2.0" = unlines ["E4_Bvp 1.0 2.0"]
  /\ concat (map batch_lines ["E4_Bvp 1"; terminated ".0 2.0"]) = [".0 2.0"]
  /\ concat (map batch_lines ["E4_Bvp 1"; terminated ".0 2.0"])
     <> ["E4_Bvp 1.0 2.0"]
  /\ channel "E4_Bvp"
       (_run py_float py_int
          [Recv (Received "E4_Bvp 1"); Recv (Received (terminated ".0 2.0"))]
          (streaming Decimal)).2 = []
  /\ channel "E4_Bvp"
       (_run py_float py_int
          [Recv (Received (unlines ["E4_Bvp 1.0 2.0"]))]
          (streaming Decimal)).2 = [((1, 0%nat), Float (2, 0%nat))].
Proof.
  split; [reflexivity|].
  split; [reflexivity|].
  split; [discriminate|].
  split; vm_compute; reflexivity.
Qed.

Lemma reassembly_per_chunk_witness :
  Forall (fun c : list string * string => Forall no_newline c.1 /\ no_newline c.2)
    [(["E4_Bvp 1.0 2.0"; "E4_Gsr 1.5 3.0"], ""); (["E4_Acc 2.0 1 2 3"], "E4_Temper")]
  /\ concat (map (fun c : list string * string => batch_lines (unlines c.1 +:+ c.2))
       [(["E4_Bvp 1.0 2.0"; "E4_Gsr 1.5 3.0"], "");
        (["E4_Acc 2.0 1 2 3"], "E4_Temper")])
     = ["E4_Bvp 1.0 2.0"; "E4_Gsr 1.5 3.0"; "E4_Acc 2.0 1 2 3"].
Proof.
  assert (H : Forall (fun c : list string * string =>
                        Forall no_newline c.1 /\ no_newline c.2)
                [(["E4_Bvp 1.0 2.0"; "E4_Gsr 1.5 3.0"], "");
                 (["E4_Acc 2.0 1 2 3"], "E4_Temper")]).
  { repeat constructor. }
  split; [exact H|].
  exact (proj1 (reassembly_per_chunk Decimal py_float py_int _ H)).
Defined.

(** C2 as stated fails: an empty line between two well-formed lines takes
    both of them with it. Neither sample reaches its channel and the line
    after the empty one is not even pushed to its outlet, where the same
    batch without the empty line delivers both. *)
Lemma empty_line_drops_batch :
  let w' := (iteration py_float py_int
               (Received (unlines ["E4_Bvp 1.0 2.0"; ""; "E4_Gsr 1.5 3.0"]))
               (streaming Decimal)).2 in
  let w'' := (iteration py_float py_int
                (Received (unlines ["E4_Bvp 1.0 2.0"; "E4_Gsr 1.5 3.0"]))
                (streaming Decimal)).2 in
  channel "E4_Bvp" w' = [] /\ channel "E4_Gsr" w' = []
  /\ outletGSR w' = Some []
  /\ channel "E4_Bvp" w'' = [((1, 0%nat), Float (2, 0%nat))]
  /\ channel "E4_Gsr" w'' = [((15, 1%nat), Float (3, 0%nat))]
  /\ outletGSR w'' = Some [([(3, 0%nat)], (15, 1%nat))].
Proof. vm_compute. repeat split. Qed.

Lemma line_fault_aborts_batch_witness :
  ready (streaming Decimal) = true
  /\ _running (streaming Decimal) = true
  /\ faulty py_float py_int "" = true
  /\ _read_data py_float py_int
       (Received (unlines (["E4_Bvp 1.0 2.0"] ++ "" :: ["E4_Gsr 1.5 3.0"]) +:+ ""))
       (streaming Decimal)
     = (Ok None,
        faulted IndexError
          (pushed (parse_lines py_float py_int ["E4_Bvp 1.0 2.0"]).1
             (streaming Decimal))).
Proof.
  split; [reflexivity|]. split; [reflexivity|]. split; [reflexivity|].
  destruct (line_fault_aborts_batch Decimal py_float py_int
              ["E4_Bvp 1.0 2.0"] ["E4_Gsr 1.5 3.0"] "" "" []
              (streaming Decimal) eq_refl eq_refl
              ltac:(repeat constructor) eq_refl eq_refl eq_refl)
    as [e (He & Hr & _)].
  rewrite Hr. injection He as <-. reflexivity.
Defined.

(** C3 as stated fails: after a connection reset in one iteration the loop
    performs the next one (its sample is delivered), is still running when
    the events end, and the socket has not been closed. *)
Lemma reset_does_not_end_loop :
  let r := _run py_float py_int
             [Recv (Raised ConnectionResetError);
              Recv (Received (unlines ["E4_Bvp 1.0 2.0"]))]
             (streaming Decimal) in
  r.1 = Ok Blocked
  /\ channel "E4_Bvp" r.2 = [((1, 0%nat), Float (2, 0%nat))]
  /\ closes <$> _socket r.2 = Some 0%nat.
Proof. vm_compute. repeat split. Qed.

Lemma run_cleanup_once_witness :
  exists s,
    _socket (streaming Decimal) = Some s
    /\ _run py_float py_int [Recv (Raised ConnectionResetError); StopRequested]
         (streaming Decimal)
       = _run py_float py_int [StopRequested]
           (faulted ConnectionResetError (streaming Decimal))
    /\ (_run py_float py_int [StopRequested] (streaming Decimal)).1 = Ok Finished
    /\ _socket (_run py_float py_int [StopRequested] (streaming Decimal)).2
       = Some (closed_once s).
Proof.
  let o := eval vm_compute in (_socket (streaming Decimal)) in
  match o with
  | Some ?s =>
      assert (Hs : _socket (streaming Decimal) = Some s)
        by (vm_compute; reflexivity);
      exists s
  end.
  assert (Hr : _running (streaming Decimal) = true) by (vm_compute; reflexivity).
  destruct (run_cleanup_once Decimal py_float py_int ConnectionResetError
              [StopRequested] (streaming Decimal) _ Hs) as [H1 H2].
  split; [exact Hs|].
  split; [exact (H1 Hr)|].
  split; vm_compute; reflexivity.
Defined.

(** C4 as stated fails: a receive timeout is logged as an error and
    followed by the one-second sleep, exactly like a connection reset. *)
Lemma timeout_is_logged_and_delayed :
  let w := (_read_data py_float py_int (Raised SocketTimeout)
              (streaming Decimal)).2 in
  let w' := (_read_data py_float py_int (Raised ConnectionResetError)
               (streaming Decimal)).2 in
  _log w = _log (streaming Decimal)
           ++ [LogError "ERROR reading from E4Streamer" SocketTimeout]
  /\ slept w = 1%nat
  /\ slept (streaming Decimal) = 0%nat
  /\ _log w' = _log (streaming Decimal)
               ++ [LogError "ERROR reading from E4Streamer" ConnectionResetError]
  /\ slept w' = 1%nat.
Proof. vm_compute. repeat split. Qed.

Lemma receive_error_uniform_witness :
  defined (_socket (streaming Decimal)) = true
  /\ _read_data py_float py_int (Raised SocketTimeout) (streaming Decimal)
     = (Ok None, faulted SocketTimeout (streaming Decimal)).
Proof.
  split; [reflexivity|].
  exact (proj1 (receive_error_uniform Decimal py_float py_int SocketTimeout []
                  (streaming Decimal) eq_refl)).
Defined.

Lemma unknown_tag_skipped_witness :
  split "E4_Unknown 1.0 5" = "E4_Unknown" :: ["1.0"; "5"]
  /\ existsb (String.eqb "E4_Unknown") vocabulary = false
  /\ process py_float py_int "E4_Unknown 1.0 5" ([], [], []) (streaming Decimal)
     = (Ok ([], [], []), streaming Decimal)
  /\ iteration py_float py_int
       (Received (unlines (["E4_Bvp 1.0 2.0"] ++ "E4_Unknown 1.0 5"
                           :: ["E4_Gsr 1.5 3.0"]) +:+ ""))
       (streaming Decimal)
     = iteration py_float py_int
         (Received (unlines (["E4_Bvp 1.0 2.0"] ++ ["E4_Gsr 1.5 3.0"]) +:+ ""))
         (streaming Decimal).
Proof.
  split; [reflexivity|]. split; [reflexivity|].
  destruct (unknown_tag_skipped Decimal py_float py_int
              "E4_Unknown 1.0 5" "E4_Unknown" ["1.0"; "5"]
              ["E4_Bvp 1.0 2.0"] ["E4_Gsr 1.5 3.0"] "" ([], [], [])
              (streaming Decimal) eq_refl eq_refl
              ltac:(repeat constructor) eq_refl)
    as (H1 & _ & _ & H4).
  split; [exact H1|exact H4].
Defined.

Lemma demux_routing_witness :
  let response := unlines ["E4_Acc 1,5 1 2 3"; "E4_Bvp 12,500 3,14";
                           "E4_Gsr 1 2"; "E4_Temperature 36.6 30.5"] in
  let w' := (iteration py_float py_int (Received response)
               (streaming Decimal)).2 in
  ready (streaming Decimal) = true
  /\ (parse_lines py_float py_int (batch_lines response)).2 = None
  /\ channel "E4_Acc" w' = [((15, 1%nat), Ints [1; 2; 3])]
  /\ channel "E4_Bvp" w' = [((125, 1%nat), Float (314, 2%nat))]
  /\ channel "E4_Gsr" w' = [((1, 0%nat), Float (2, 0%nat))]
  /\ channel "E4_Temperature" w' = [((366, 1%nat), Float (305, 1%nat))].
Proof.
  cbv zeta.
  split; [reflexivity|]. split; [reflexivity|].
  destruct (demux_routing Decimal py_float py_int
              (unlines ["E4_Acc 1,5 1 2 3"; "E4_Bvp 12,500 3,14";
                        "E4_Gsr 1 2"; "E4_Temperature 36.6 30.5"])
              (streaming Decimal) eq_refl eq_refl) as (_ & H & _).
  rewrite !H by (simpl; tauto).
  repeat split.
Defined.

Lemma fault_splits_consumers_witness :
  let response := unlines ["E4_Bvp 1.0 2.0"; ""; "E4_Gsr 1.5 3.0"] in
  let w' := (iteration py_float py_int (Received response)
               (streaming Decimal)).2 in
  ready (streaming Decimal) = true
  /\ batch_lines response = ["E4_Bvp 1.0 2.0"] ++ "" :: ["E4_Gsr 1.5 3.0"]
  /\ (parse_lines py_float py_int ["E4_Bvp 1.0 2.0"]).2 = None
  /\ parse py_float py_int "" = Raise IndexError
  /\ outletBVP w' = Some [([(2, 0%nat)], (1, 0%nat))]
  /\ _data w' = _data (streaming Decimal).
Proof.
  cbv zeta.
  split; [reflexivity|]. split; [reflexivity|].
  split; [reflexivity|]. split; [reflexivity|].
  destruct (fault_splits_consumers Decimal py_float py_int
              (unlines ["E4_Bvp 1.0 2.0"; ""; "E4_Gsr 1.5 3.0"])
              ["E4_Bvp 1.0 2.0"] ["E4_Gsr 1.5 3.0"] "" IndexError
              (streaming Decimal) eq_refl eq_refl eq_refl eq_refl)
    as (_ & _ & _ & H & _ & _ & H').
  split; [rewrite H; reflexivity|exact H'].
Defined.

(** The arity example of the record parser: the accelerometer line with two
    values raises on the missing third one, the line with three values is
    recognised; a fourth value would not be looked at. *)
Example parse_acc_short :
  parse py_float py_int "E4_Acc 1.0 1 2" = Raise IndexError.
Proof. reflexivity. Qed.

Example parse_acc_full :
  parse py_float py_int "E4_Acc 1.0 1 2 3"
  = Ok (Some ("E4_Acc", (1, 0%nat), Ints [1; 2; 3])).
Proof. reflexivity. Qed.

Example parse_acc_extra :
  parse py_float py_int "E4_Acc 1.0 1 2 3 4"
  = Ok (Some ("E4_Acc", (1, 0%nat), Ints [1; 2; 3])).
Proof. reflexivity. Qed.

Example parse_acc_fractional :
  parse py_float py_int "E4_Acc 1.0 1,5 2 3" = Raise ValueError.
Proof. reflexivity. Qed.

Example parse_bvp_comma :
  parse py_float py_int "E4_Bvp 12,500 3,14"
  = Ok (Some ("E4_Bvp", (125, 1%nat), Float (314, 2%nat))).
Proof. reflexivity. Qed.

Example parse_unknown :
  parse py_float py_int "E4_Unknown 1.0 5" = Ok None.
Proof. reflexivity. Qed.

(** ** The converters *)

(** X15. The loop body hands the converters only texts that are not empty
    and contain neither whitespace nor a comma: two pairs of converters
    that agree on such texts give the same loop body, the same
    [_read_data] and the same iteration. *)
Theorem converters_see_clean_tokens (F : Type)
    (float float' : string -> option F) (int int' : string -> option Z)
    (line : string) (net : recv_result) (acc : Lists F) (w : World F) :
  (forall t, clean t = true -> float t = float' t) ->
  (forall t, clean t = true -> int t = int' t) ->
  process float int line acc w = process float' int' line acc w
  /\ _read_data float int net w = _read_data float' int' net w
  /\ iteration float int net w = iteration float' int' net w.
Proof.
  intros Hf Hi.
  assert (Hp : forall line acc w,
             process float int line acc w = process float' int' line acc w).
  { clear line acc w. intros line acc w. unfold process, scalar_branch.
    rewrite !(field_ext float float' line _ Hf),
      !(field_ext int int' line _ Hi).
    reflexivity. }
  assert (Hr : forall w, _read_data float int net w
                         = _read_data float' int' net w).
  { clear w. intros w. unfold _read_data, try_except.
    rewrite !bind_run.
    destruct (recv F net w) as [[response|e] w']; [|reflexivity].
    rewrite !bind_run. unfold for_range.
    rewrite (for_range_from_ext F _
               (line_body F float' int' (split_on LF response))).
    - reflexivity.
    - intros i a v. unfold line_body. rewrite !bind_run.
      destruct (lift F (index (split_on LF response) i) v) as [[l|e] v'];
        [apply Hp|reflexivity]. }
  split; [apply Hp|]. split; [apply Hr|].
  unfold iteration. now rewrite !bind_run, Hr.
Qed.

(** ** The further properties run on concrete inputs *)

Lemma connect_success_witness :
  length ["a"; "b"; "c"; "d"; "e"; "f"; "g"; "h"] = 8%nat
  /\ (_connect None
        (map Received ["a"; "b"; "c"; "d"; "e"; "f"; "g"; "h"]
         ++ [Raised ConnectionResetError])
        (__init__ Decimal)).1 = Ok true.
Proof.
  split; [reflexivity|].
  rewrite (connect_success Decimal ["a"; "b"; "c"; "d"; "e"; "f"; "g"; "h"]
             [Raised ConnectionResetError] (__init__ Decimal) eq_refl).
  reflexivity.
Defined.

Lemma connect_handshake_failure_witness :
  (length ["a"; "b"; "c"] < 8)%nat
  /\ (_connect None (map Received ["a"; "b"; "c"] ++ [Raised ConnectionResetError])
        (__init__ Decimal)).1 = Raise ConnectionResetError
  /\ (sent <$> _socket
               (_connect None
                  (map Received ["a"; "b"; "c"] ++ [Raised ConnectionResetError])
                  (__init__ Decimal)).2)
     = Some (take 4 handshake_commands)
  /\ outletACC
       (_connect None
          (map Received ["a"; "b"; "c"] ++ [Raised ConnectionResetError])
          (__init__ Decimal)).2 = None.
Proof.
  assert (H : (length ["a"; "b"; "c"] < 8)%nat) by (simpl; lia).
  split; [exact H|].
  destruct (connect_handshake_failure Decimal ["a"; "b"; "c"] []
              ConnectionResetError (__init__ Decimal) H) as [H1 _].
  rewrite H1. repeat split.
Defined.

Lemma read_data_sound_witness :
  (_read_data py_float py_int
     (Received (unlines ["E4_Acc 1,5 1 2 3"; "E4_Bvp 12,500 3,14"]))
     (streaming Decimal)).1
  = Ok (Some (["E4_Acc"; "E4_Bvp"], [(15, 1%nat); (125, 1%nat)],
              [Ints [1; 2; 3]; Float (314, 2%nat)]))
  /\ length ["E4_Acc"; "E4_Bvp"] = length [(15, 1%nat); (125, 1%nat)].
Proof.
  assert (H : (_read_data py_float py_int
                 (Received (unlines ["E4_Acc 1,5 1 2 3"; "E4_Bvp 12,500 3,14"]))
                 (streaming Decimal)).1
              = Ok (Some (["E4_Acc"; "E4_Bvp"], [(15, 1%nat); (125, 1%nat)],
                          [Ints [1; 2; 3]; Float (314, 2%nat)])))
    by (vm_compute; reflexivity).
  split; [exact H|].
  destruct (read_data_sound Decimal py_float py_int _ _ _ _ _ H)
    as (_ & _ & _ & _ & Hl & _).
  exact Hl.
Defined.

Lemma iteration_never_raises_witness :
  (iteration py_float py_int (Received (unlines ["E4_Bvp 1.0 2.0"; ""]))
     (__init__ Decimal)).1 = Ok tt.
Proof.
  exact (proj1 (iteration_never_raises Decimal py_float py_int
                  (Received (unlines ["E4_Bvp 1.0 2.0"; ""])) []
                  (__init__ Decimal))).
Defined.

Lemma unterminated_chunk_ignored_witness :
  no_newline "" /\ defined (_socket (streaming Decimal)) = true
  /\ _running (streaming Decimal) = true
  /\ while_running py_float py_int (replicate 5 (Recv (Received "")))
       (streaming Decimal)
     = (Ok Blocked, streaming Decimal).
Proof.
  assert (Hs : defined (_socket (streaming Decimal)) = true)
    by (vm_compute; reflexivity).
  assert (Hr : _running (streaming Decimal) = true)
    by (vm_compute; reflexivity).
  split; [reflexivity|]. split; [exact Hs|]. split; [exact Hr|].
  destruct (unterminated_chunk_ignored Decimal py_float py_int "" 5
              (streaming Decimal) eq_refl Hs) as (_ & _ & H).
  exact (H Hr).
Defined.

Lemma while_running_app_witness :
  (_run py_float py_int [StopRequested] (streaming Decimal)).1 <> Ok Blocked
  /\ _run py_float py_int
       ([StopRequested] ++ [Recv (Received (unlines ["E4_Bvp 1.0 2.0"]))])
       (streaming Decimal)
     = _run py_float py_int [StopRequested] (streaming Decimal).
Proof.
  assert (H : (_run py_float py_int [StopRequested] (streaming Decimal)).1
              <> Ok Blocked) by (vm_compute; discriminate).
  split; [exact H|].
  exact (proj2 (while_running_app Decimal py_float py_int [StopRequested]
                  [Recv (Received (unlines ["E4_Bvp 1.0 2.0"]))]
                  (streaming Decimal)) H).
Defined.

Lemma run_without_socket_witness :
  _socket (set_running Decimal true (__init__ Decimal)) = None
  /\ (_run py_float py_int [Recv (Received (unlines ["E4_Bvp 1.0 2.0"]));
                            StopRequested]
        (set_running Decimal true (__init__ Decimal))).1
     = Raise AttributeError.
Proof.
  split; [reflexivity|].
  destruct (run_without_socket Decimal py_float py_int (Raised OSError)
              [Recv (Received (unlines ["E4_Bvp 1.0 2.0"])); StopRequested]
              (set_running Decimal true (__init__ Decimal)) eq_refl)
    as [_ [H|H]]; [|exact H].
  vm_compute in H. discriminate H.
Defined.

Lemma quit_after_run_witness :
  (_run py_float py_int [StopRequested] (streaming Decimal)).1 = Ok Finished
  /\ (quit (_run py_float py_int [StopRequested] (streaming Decimal)).2).1
     = Ok tt
  /\ closes <$> _socket
       (quit (_run py_float py_int [StopRequested] (streaming Decimal)).2).2
     = Some 2%nat.
Proof.
  assert (Hf : (_run py_float py_int [StopRequested] (streaming Decimal)).1
               = Ok Finished) by (vm_compute; reflexivity).
  split; [exact Hf|].
  let o := eval vm_compute in (_socket (streaming Decimal)) in
  match o with
  | Some ?s =>
      assert (Hs : _socket (streaming Decimal) = Some s)
        by (vm_compute; reflexivity);
      destruct (quit_after_run Decimal py_float py_int [StopRequested]
                  (streaming Decimal) s Hs Hf) as [H1 H2]
  end.
  split; [exact H1|]. rewrite H2. reflexivity.
Defined.

Lemma batches_in_order_witness :
  let responses := [unlines ["E4_Bvp 1.0 2.0"];
                    unlines ["E4_Bvp 2.0 3.0"; ""; "E4_Bvp 3.0 4.0"];
                    unlines ["E4_Bvp 4.0 5.0"]] in
  let out := while_running py_float py_int
               (map (fun r => Recv (Received r)) responses)
               (streaming Decimal) in
  ready (streaming Decimal) = true
  /\ _running (streaming Decimal) = true
  /\ channel "E4_Bvp" out.2
     = [((1, 0%nat), Float (2, 0%nat)); ((4, 0%nat), Float (5, 0%nat))]
  /\ slept out.2 = 1%nat.
Proof.
  cbv zeta.
  assert (Hw : ready (streaming Decimal) = true) by (vm_compute; reflexivity).
  assert (Hr : _running (streaming Decimal) = true)
    by (vm_compute; reflexivity).
  split; [exact Hw|]. split; [exact Hr|].
  destruct (batches_in_order Decimal py_float py_int
              [unlines ["E4_Bvp 1.0 2.0"];
               unlines ["E4_Bvp 2.0 3.0"; ""; "E4_Bvp 3.0 4.0"];
               unlines ["E4_Bvp 4.0 5.0"]]
              (streaming Decimal) Hw Hr) as (_ & H & _ & _ & _ & _ & Hs & _).
  rewrite (H "E4_Bvp") by (simpl; tauto). rewrite Hs.
  split; vm_compute; reflexivity.
Defined.

Lemma streams_registered_witness :
  registered Decimal (streaming Decimal)
  /\ dom (_data (iteration py_float py_int
                   (Received (unlines ["E4_Bvp 1.0 2.0"])) (streaming Decimal)).2)
     = dom (_data (streaming Decimal)).
Proof.
  assert (H : registered Decimal (streaming Decimal)).
  { intros name Hn. simpl in Hn.
    destruct Hn as [<- | [<- | [<- | [<- | []]]]]; vm_compute; eauto. }
  split; [exact H|].
  destruct (streams_registered Decimal py_float py_int
              (Received (unlines ["E4_Bvp 1.0 2.0"])) None []
              (streaming Decimal)) as (_ & _ & Hi & _).
  exact (proj1 (Hi H)).
Defined.

Lemma extra_tokens_ignored_witness :
  split "E4_Bvp 1.0 2.0" = "E4_Bvp" :: ["1.0"; "2.0"]
  /\ (1 + arity "E4_Bvp" <= length ["1.0"; "2.0"])%nat
  /\ split "E4_Bvp 1.0 2.0 9 9" = "E4_Bvp" :: ["1.0"; "2.0"] ++ ["9"; "9"]
  /\ parse py_float py_int "E4_Bvp 1.0 2.0 9 9"
     = parse py_float py_int "E4_Bvp 1.0 2.0".
Proof.
  assert (H : (1 + arity "E4_Bvp" <= length ["1.0"; "2.0"])%nat)
    by (vm_compute; lia).
  split; [reflexivity|]. split; [exact H|]. split; [reflexivity|].
  exact (proj2 (extra_tokens_ignored Decimal py_float py_int
                  "E4_Bvp 1.0 2.0" "E4_Bvp 1.0 2.0 9 9" "E4_Bvp"
                  ["1.0"; "2.0"] ["9"; "9"] ([], [], []) (streaming Decimal)
                  eq_refl H eq_refl)).
Defined.

Lemma carriage_return_ignored_witness :
  Forall no_newline ["E4_Bvp 1.0 2.0"; "E4_Gsr 1.5 3.0"]
  /\ _read_data py_float py_int
       (Received (unlines (map (fun l => l +:+ String "013" EmptyString)
                             ["E4_Bvp 1.0 2.0"; "E4_Gsr 1.5 3.0"])))
       (streaming Decimal)
     = _read_data py_float py_int
         (Received (unlines ["E4_Bvp 1.0 2.0"; "E4_Gsr 1.5 3.0"]))
         (streaming Decimal).
Proof.
  assert (H : Forall no_newline ["E4_Bvp 1.0 2.0"; "E4_Gsr 1.5 3.0"])
    by (repeat constructor).
  split; [exact H|].
  exact (proj2 (carriage_return_ignored Decimal py_float py_int
                  ["E4_Bvp 1.0 2.0"; "E4_Gsr 1.5 3.0"] "" " "%char
                  (streaming Decimal) H)).
Defined.

Lemma response_decomposition_witness :
  batch_lines ("E4_Bvp 1.0 2.0" +:+ String LF "E4_Gs") = ["E4_Bvp 1.0 2.0"]
  /\ tail_of ("E4_Bvp 1.0 2.0" +:+ String LF "E4_Gs") = "E4_Gs".
Proof.
  destruct (response_decomposition ("E4_Bvp 1.0 2.0" +:+ String LF "E4_Gs"))
    as (_ & _ & _ & H).
  destruct (H ["E4_Bvp 1.0 2.0"] "E4_Gs" ltac:(repeat constructor) eq_refl
              eq_refl) as [H1 H2].
  split; symmetry; assumption.
Defined.

Lemma converters_see_clean_tokens_witness :
  (forall t, clean t = true ->
             py_float t = (fun t => if clean t then py_float t else None) t)
  /\ (forall t, clean t = true ->
                py_int t = (fun t => if clean t then py_int t else Some 0) t)
  /\ iteration py_float py_int (Received (unlines ["E4_Acc 1,5 1 2 3"]))
       (streaming Decimal)
     = iteration (fun t => if clean t then py_float t else None)
         (fun t => if clean t then py_int t else Some 0)
         (Received (unlines ["E4_Acc 1,5 1 2 3"])) (streaming Decimal).
Proof.
  assert (Hf : forall t, clean t = true ->
                 py_float t = (fun t => if clean t then py_float t else None) t).
  { intros t H. simpl. rewrite H. reflexivity. }
  assert (Hi : forall t, clean t = true ->
                 py_int t = (fun t => if clean t then py_int t else Some 0) t).
  { intros t H. simpl. rewrite H. reflexivity. }
  split; [exact Hf|]. split; [exact Hi|].
  exact (proj2 (proj2 (converters_see_clean_tokens Decimal py_float _ py_int _
                         "" (Received (unlines ["E4_Acc 1,5 1 2 3"]))
                         ([], [], []) (streaming Decimal) Hf Hi))).
Defined.

Lemma digits_rejects_dot (s : string) :
  forall (acc : Z) (b : bool),
    has_char dot s = true -> digits acc b s = None.
Proof.
  induction s as [|c s IH]; intros acc b H; [discriminate H|].
  destruct c as [[] [] [] [] [] [] [] []]; simpl in H |- *;
    try reflexivity; try (apply IH; exact H);
    destruct b; try reflexivity; apply IH; exact H.
Qed.

Lemma py_int_rejects_dot (t : string) :
  has_char dot t = true -> py_int t = None.
Proof.
  destruct t as [|c s]; [discriminate|]. intros H.
  unfold py_int, signed.
  destruct (Ascii.eqb_spec c "+"%char) as [->|Hp].
  { apply digits_rejects_dot. exact H. }
  destruct (Ascii.eqb_spec c "-"%char) as [->|Hm].
  { rewrite digits_rejects_dot; [reflexivity|exact H]. }
  apply digits_rejects_dot. exact H.
Qed.

Lemma fractional_acc_faults_witness :
  (forall t, has_char dot t = true -> py_int t = None)
  /\ faulty py_float py_int "E4_Acc 1.0 1 2,5 3" = true.
Proof.
  split; [exact py_int_rejects_dot|].
  exact (proj1 (fractional_acc_faults Decimal py_float py_int
                  "E4_Acc 1.0 1 2,5 3" ["1.0"; "1"; "2,5"; "3"] 2 "2,5"
                  py_int_rejects_dot eq_refl ltac:(lia) eq_refl eq_refl)).
Defined.

Lemma visualization_options_lookup_witness :
  let si : gmap string (gmap string unit) :=
    <["ACC-empatica_e4" := {["acc-values" := tt]}]>
      (<["BVP-empatica_e4" := {["bvp-values" := tt]}]>
         (<["GSR-empatica_e4" := {["gsr-values" := tt]}]>
            (<["Tmp-empatica_e4" := {["tmp-values" := tt]}]>
               {["scale" := {["weight" := tt]}]}))) in
  let vo : gmap string (gmap string Value) :=
    {["ACC-empatica_e4" := {["plot_duration_s" := VInt 30]}]} in
  (forall d, d ∈ plotted.*1 -> is_Some (si !! d))
  /\ exists p,
       get_default_visualization_options si (Some vo) = Some p
       /\ (lookup2 p "ACC-empatica_e4" "acc-values"
           ≫= (fun o => o !! "plot_duration_s")) = Some (VInt 30)
       /\ (lookup2 p "ACC-empatica_e4" "acc-values"
           ≫= (fun o => o !! "class")) = Some (VClass "LinePlotVisualizer")
       /\ (lookup2 p "BVP-empatica_e4" "bvp-values"
           ≫= (fun o => o !! "plot_duration_s")) = Some (VInt 15)
       /\ lookup2 p "scale" "weight" = Some no_visualizer.
Proof.
  intros si vo.
  assert (H : forall d, d ∈ plotted.*1 -> is_Some (si !! d)).
  { intros d Hd. simpl in Hd. rewrite !elem_of_cons, elem_of_nil in Hd.
    destruct Hd as [->|[->|[->|[->|[]]]]]; vm_compute; eauto. }
  split; [exact H|].
  destruct (visualization_options_lookup si (Some vo) H) as (p & Hp & _ & Hl).
  exists p. split; [exact Hp|].
  rewrite !Hl. vm_compute. repeat split.
Defined.

Lemma visualization_options_key_error_witness :
  "ACC-empatica_e4" ∈ plotted.*1
  /\ (∅ : gmap string (gmap string unit)) !! "ACC-empatica_e4" = None
  /\ get_default_visualization_options (∅ : gmap string (gmap string unit)) None
     = None.
Proof.
  assert (H : "ACC-empatica_e4" ∈ plotted.*1) by (repeat constructor).
  split; [exact H|]. split; [reflexivity|].
  exact (visualization_options_key_error ∅ None "ACC-empatica_e4" H eq_refl).
Defined.


Lemma cut_at_line_boundary_witness :
  ready (streaming Decimal) = true
  /\ _running (streaming Decimal) = true
  /\ batch_ok Decimal py_float py_int
       (unlines ["E4_Bvp 1.0 2.0"] +:+ unlines ["E4_Gsr 1.5 3.0"]) = true
  /\ while_running py_float py_int
       [Recv (Received (unlines ["E4_Bvp 1.0 2.0"]));
        Recv (Received (unlines ["E4_Gsr 1.5 3.0"]))]
       (streaming Decimal)
     = while_running py_float py_int
         [Recv (Received (unlines ["E4_Bvp 1.0 2.0"]
                          +:+ unlines ["E4_Gsr 1.5 3.0"]))]
         (streaming Decimal).
Proof.
  assert (Hw : ready (streaming Decimal) = true) by (vm_compute; reflexivity).
  assert (Hr : _running (streaming Decimal) = true)
    by (vm_compute; reflexivity).
  assert (Hok : batch_ok Decimal py_float py_int
                  (unlines ["E4_Bvp 1.0 2.0"] +:+ unlines ["E4_Gsr 1.5 3.0"])
                = true) by (vm_compute; reflexivity).
  split; [exact Hw|]. split; [exact Hr|]. split; [exact Hok|].
  exact (cut_at_line_boundary Decimal py_float py_int ["E4_Bvp 1.0 2.0"]
           (unlines ["E4_Gsr 1.5 3.0"]) [] (streaming Decimal) Hw Hr
           ltac:(repeat constructor) Hok).
Defined.
